(** * ML DDoS detector: a shallow embedding of [ml_ddos_detector.py]

    The development follows the class [MLDDoSDetector]: its per-source
    traffic window, the feature extraction, the inline check of
    [record_request], the periodic sweep of [_periodic_analysis], the
    administrative [unblock_ip] and [get_status].

    Conventions of the embedding.
    - Python floats (timestamps, features, scores, thresholds) are read as
      rationals [Q]; comparisons are the exact ones.
    - Python dicts keep insertion order, and that order is what numpy and
      scikit-learn receive, so a dict is an association list whose keys are
      pairwise distinct (an invariant proved below for every reachable state).
    - Python sets of addresses are [gset string].
    - [time.time()] is an input of every operation that reads the clock.
    - numpy's square root and scikit-learn's scaler and isolation forest are
      not part of the repository: they are parameters of the development.
    - The two execution paths are interleaved at the granularity of one
      whole operation (one call, one sweep iteration). *)

From Stdlib Require Import QArith.
From stdpp Require Import base decidable option list strings gmap sets.

Open Scope Z_scope.
Open Scope nat_scope.

Set Warnings "-clear-no-such-hyp".

(** ** Rational helpers *)

Definition Qltb (x y : Q) : bool := negb (Qle_bool y x).

Definition Qsum (l : list Q) : Q := foldr Qplus 0%Q l.

Definition Qof_nat (n : nat) : Q := inject_Z (Z.of_nat n).

(** Python's [max] and [min] over a non-empty list. *)
Definition Qmax_list (l : list Q) : Q :=
  match l with
  | [] => 0%Q
  | x :: l' => fold_left (fun m y => if Qltb m y then y else m) l' x
  end.

Definition Qmin_list (l : list Q) : Q :=
  match l with
  | [] => 0%Q
  | x :: l' => fold_left (fun m y => if Qltb y m then y else m) l' x
  end.

(** [int(ts)]: truncation toward zero. *)
Definition py_int (q : Q) : Z := Z.quot (Qnum q) (Zpos (Qden q)).

(** ** Python dictionaries as insertion-ordered association lists *)

Section dict.
Context {K V : Type} `{EqDecision K}.

Fixpoint dict_get (k : K) (d : list (K * V)) : option V :=
  match d with
  | [] => None
  | (k', v) :: d' => if decide (k = k') then Some v else dict_get k d'
  end.

(** [d[k] = v]: overwrite in place, or append a new entry. *)
Fixpoint dict_set (k : K) (v : V) (d : list (K * V)) : list (K * V) :=
  match d with
  | [] => [(k, v)]
  | (k', v') :: d' =>
      if decide (k = k') then (k, v) :: d' else (k', v') :: dict_set k v d'
  end.

(** [del d[k]]. *)
Fixpoint dict_del (k : K) (d : list (K * V)) : list (K * V) :=
  match d with
  | [] => []
  | (k', v') :: d' =>
      if decide (k = k') then dict_del k d' else (k', v') :: dict_del k d'
  end.

Definition dict_keys (d : list (K * V)) : list K := d.*1.
Definition dict_values (d : list (K * V)) : list V := d.*2.

(** [k in d]. *)
Definition dict_has (k : K) (d : list (K * V)) : bool :=
  bool_decide (k ∈ dict_keys d).

(** [defaultdict.__getitem__]: a missing key is inserted with the default. *)
Definition dict_touch (dflt : V) (k : K) (d : list (K * V)) : list (K * V) :=
  match dict_get k d with
  | Some _ => d
  | None => dict_set k dflt d
  end.

End dict.

(** ** Data model *)

(** One entry of a source's deque in [traffic_data]. *)
Record TrafficRecord := {
  timestamp : Q;
  bytes : Z;
  method : string;
  url : string;
  status_code : Z
}.

(** The constructor's arguments. *)
Record Config := {
  block_threshold : Q;
  window_size : Q;
  features_window : nat
}.

(** The fields of [MLDDoSDetector] that the operations read or write.
    [fit_calls] is the history of training calls (the population handed to
    [StandardScaler.fit_transform] and [self.model.fit]), most recent first;
    [save_calls] is the history of the snapshots handed to [_save_state],
    most recent first. *)
Record Detector := {
  config : Config;
  traffic_data : list (string * list TrafficRecord);
  ip_timestamps : list (string * list Q);
  ip_features : list (string * list Q);
  blocked_ips : gset string;
  suspicious_ips : gset string;
  false_positives : gset string;
  fit_calls : list (list (list Q));
  save_calls : list (gset string * gset string)
}.

Definition set_traffic_data f (d : Detector) : Detector :=
  {| config := config d; traffic_data := f (traffic_data d);
     ip_timestamps := ip_timestamps d; ip_features := ip_features d;
     blocked_ips := blocked_ips d; suspicious_ips := suspicious_ips d;
     false_positives := false_positives d; fit_calls := fit_calls d;
     save_calls := save_calls d |}.

Definition set_ip_timestamps f (d : Detector) : Detector :=
  {| config := config d; traffic_data := traffic_data d;
     ip_timestamps := f (ip_timestamps d); ip_features := ip_features d;
     blocked_ips := blocked_ips d; suspicious_ips := suspicious_ips d;
     false_positives := false_positives d; fit_calls := fit_calls d;
     save_calls := save_calls d |}.

Definition set_ip_features f (d : Detector) : Detector :=
  {| config := config d; traffic_data := traffic_data d;
     ip_timestamps := ip_timestamps d; ip_features := f (ip_features d);
     blocked_ips := blocked_ips d; suspicious_ips := suspicious_ips d;
     false_positives := false_positives d; fit_calls := fit_calls d;
     save_calls := save_calls d |}.

Definition set_blocked_ips f (d : Detector) : Detector :=
  {| config := config d; traffic_data := traffic_data d;
     ip_timestamps := ip_timestamps d; ip_features := ip_features d;
     blocked_ips := f (blocked_ips d); suspicious_ips := suspicious_ips d;
     false_positives := false_positives d; fit_calls := fit_calls d;
     save_calls := save_calls d |}.

Definition set_suspicious_ips f (d : Detector) : Detector :=
  {| config := config d; traffic_data := traffic_data d;
     ip_timestamps := ip_timestamps d; ip_features := ip_features d;
     blocked_ips := blocked_ips d; suspicious_ips := f (suspicious_ips d);
     false_positives := false_positives d; fit_calls := fit_calls d;
     save_calls := save_calls d |}.

Definition set_false_positives f (d : Detector) : Detector :=
  {| config := config d; traffic_data := traffic_data d;
     ip_timestamps := ip_timestamps d; ip_features := ip_features d;
     blocked_ips := blocked_ips d; suspicious_ips := suspicious_ips d;
     false_positives := f (false_positives d); fit_calls := fit_calls d;
     save_calls := save_calls d |}.

Definition set_fit_calls f (d : Detector) : Detector :=
  {| config := config d; traffic_data := traffic_data d;
     ip_timestamps := ip_timestamps d; ip_features := ip_features d;
     blocked_ips := blocked_ips d; suspicious_ips := suspicious_ips d;
     false_positives := false_positives d; fit_calls := f (fit_calls d);
     save_calls := save_calls d |}.

Definition set_save_calls f (d : Detector) : Detector :=
  {| config := config d; traffic_data := traffic_data d;
     ip_timestamps := ip_timestamps d; ip_features := ip_features d;
     blocked_ips := blocked_ips d; suspicious_ips := suspicious_ips d;
     false_positives := false_positives d; fit_calls := fit_calls d;
     save_calls := f (save_calls d) |}.

(** [__init__], with the content of the state file read by [_load_state]
    (two empty sets when the file is missing or unreadable). *)
Definition init (cfg : Config) (loaded_blocked loaded_fp : gset string)
  : Detector :=
  {| config := cfg; traffic_data := []; ip_timestamps := [];
     ip_features := []; blocked_ips := loaded_blocked; suspicious_ips := ∅;
     false_positives := loaded_fp; fit_calls := []; save_calls := [] |}.

(** [_save_state]: the snapshot written; I/O failures are swallowed there. *)
Definition _save_state (d : Detector) : Detector :=
  set_save_calls (cons (blocked_ips d, false_positives d)) d.

(** [deque(maxlen=n).append(x)]. *)
Definition deque_append {A} (n : nat) (dq : list A) (x : A) : list A :=
  let dq' := dq ++ [x] in drop (length dq' - n) dq'.

(** The deque of [ip], as [list(self.traffic_data[ip])] reads it. *)
Definition window (ip : string) (d : Detector) : list TrafficRecord :=
  default [] (dict_get ip (traffic_data d)).

(** ** Pruning: [_clean_old_data] *)

(** The [while] loop: index of the first timestamp not below the cutoff. *)
Fixpoint first_recent (cutoff : Q) (timestamps : list Q) : nat :=
  match timestamps with
  | [] => 0
  | t :: rest => if Qltb t cutoff then S (first_recent cutoff rest) else 0
  end.

(** Body of the [for ip in ...] loop. *)
Definition clean_ip (cutoff : Q) (d : Detector) (ip : string) : Detector :=
  let d0 := set_ip_timestamps (dict_touch [] ip) d in
  let timestamps := default [] (dict_get ip (ip_timestamps d0)) in
  match timestamps with
  | [] => d0
  | _ :: _ =>
      let idx := first_recent cutoff timestamps in
      if (0 <? idx)%nat then
        let d1 := set_ip_timestamps (dict_set ip (drop idx timestamps)) d0 in
        match drop idx timestamps with
        | [] =>
            let d2 := set_ip_timestamps (dict_del ip) d1 in
            let d3 := if dict_has ip (traffic_data d2)
                      then set_traffic_data (dict_del ip) d2 else d2 in
            if dict_has ip (ip_features d3)
            then set_ip_features (dict_del ip) d3 else d3
        | _ :: _ => d1
        end
      else d0
  end.

Definition _clean_old_data (current_time : Q) (d : Detector) : Detector :=
  let cutoff_time := (current_time - window_size (config d))%Q in
  fold_left (clean_ip cutoff_time) (dict_keys (ip_timestamps d)) d.

(** ** Decision registry operations *)

Definition _block_ip (ip : string) (d : Detector) : bool * Detector :=
  if decide (ip ∈ blocked_ips d) then (false, d)
  else (true, _save_state (set_blocked_ips (fun s => s ∪ {[ip]}) d)).

Definition unblock_ip (ip : string) (mark_as_false_positive : bool)
    (d : Detector) : bool * Detector :=
  if decide (ip ∈ blocked_ips d) then
    let d1 := set_blocked_ips (fun s => s ∖ {[ip]}) d in
    let d2 := if mark_as_false_positive
              then set_false_positives (fun s => s ∪ {[ip]}) d1 else d1 in
    (true, _save_state d2)
  else (false, d).

(** [get_status]: the two sets as lists and the [monitoring_ips] count. *)
Record Status := {
  st_blocked_ips : list string;
  st_suspicious_ips : list string;
  st_monitoring_ips : nat;
  st_false_positives : list string
}.

Definition get_status (d : Detector) : Status :=
  {| st_blocked_ips := elements (blocked_ips d);
     st_suspicious_ips := elements (suspicious_ips d);
     st_monitoring_ips := length (ip_features d);
     st_false_positives := elements (false_positives d) |}.

(** The history of training calls stands for [self.model]: the forest is
    seeded with [random_state=42], so it is determined by the population it
    was last fitted on. *)
Definition model_published (d : Detector) : bool :=
  match fit_calls d with [] => false | _ :: _ => true end.

(** ** The detector over numpy and scikit-learn *)

(** numpy and scikit-learn, as the detector uses them. *)
Class Numerics := {
  (** [np.sqrt], used by [np.std]. *)
  np_sqrt : Q -> Q;
  (** [fit_raises X]: [StandardScaler().fit_transform(X)] followed by
      [self.model.fit] raises on the population [X]. *)
  fit_raises : list (list Q) -> bool;
  (** [score_samples X x]: with the scaler and the forest fitted on [X],
      [-self.model.score_samples(scaler.transform(x))]; [None] when that
      raises. *)
  score_samples : list (list Q) -> list Q -> option Q
}.

Section detector.
Context `{Numerics}.

(** *** Feature extraction: [_extract_features_for_ip] *)

Definition np_diff (l : list Q) : list Q :=
  zip_with (fun a b => (b - a)%Q) l (tail l).

Definition np_mean (l : list Q) : Q := (Qsum l / Qof_nat (length l))%Q.

Definition np_std (l : list Q) : Q :=
  let m := np_mean l in
  np_sqrt (np_mean ((fun x => ((x - m) * (x - m))%Q) <$> l)).

(** [bucket_counts[int(ts)] += 1] over a [defaultdict(int)]. *)
Definition bucket_add (bc : list (Z * nat)) (ts : Q) : list (Z * nat) :=
  let bc' := dict_touch 0 (py_int ts) bc in
  dict_set (py_int ts) (S (default 0 (dict_get (py_int ts) bc'))) bc'.

Definition max_burst (timestamps : list Q) : nat :=
  if (1 <? length timestamps)%nat
  then max_list (dict_values (fold_left bucket_add timestamps []))
  else 1.

Definition ratio (count total : nat) : Q :=
  if (0 <? total)%nat then (Qof_nat count / Qof_nat total)%Q else 0%Q.

Definition compute_features (data : list TrafficRecord) : list Q :=
  let timestamps := timestamp <$> data in
  let intervals := np_diff timestamps in
  let span := (Qmax_list timestamps - Qmin_list timestamps)%Q in
  let time_span := if Qltb span (1 # 1000) then (1 # 1000)%Q else span in
  let req_rate := (Qof_nat (length data) / time_span)%Q in
  let total_bytes := foldr Z.add 0%Z (bytes <$> data) in
  let bytes_rate := (inject_Z total_bytes / time_span)%Q in
  let methods := method <$> data in
  let get_count := length (filter (fun m => m = "GET"%string) methods) in
  let post_count := length (filter (fun m => m = "POST"%string) methods) in
  let get_ratio := ratio get_count (length methods) in
  let post_ratio := ratio post_count (length methods) in
  let unique_urls :=
    (Qof_nat (length (remove_dups (url <$> data)))
     / Qof_nat (length data))%Q in
  let status_codes := status_code <$> data in
  let error_count :=
    length (filter (fun s => (400 <= s)%Z) status_codes) in
  let error_ratio := ratio error_count (length status_codes) in
  let count_4xx :=
    length (filter (fun s => (400 <= s)%Z ∧ (s < 500)%Z) status_codes) in
  let ratio_4xx := ratio count_4xx (length status_codes) in
  [ req_rate;
    if (0 <? length intervals)%nat then np_mean intervals else 0%Q;
    if (0 <? length intervals)%nat then np_std intervals else 0%Q;
    bytes_rate; get_ratio; post_ratio; unique_urls; error_ratio;
    ratio_4xx; Qof_nat (max_burst timestamps) ].

Definition _extract_features_for_ip (ip : string) (d : Detector)
  : Detector :=
  let d0 := set_traffic_data (dict_touch [] ip) d in
  if (length (window ip d0) <? 2)%nat then d0
  else set_ip_features (dict_set ip (compute_features (window ip d0))) d0.

(** *** Inline path: [_check_anomaly_realtime] and [record_request] *)

(** Lines 273-282: what the inline path does with a score. *)
Definition decide_inline (ip : string) (anomaly : Q) (d : Detector)
  : bool * Detector :=
  let threshold := block_threshold (config d) in
  if Qltb threshold anomaly then
    let d1 := set_suspicious_ips (fun s => s ∪ {[ip]}) d in
    if Qltb (threshold * (15 # 10)) anomaly
    then (false, (_block_ip ip d1).2)
    else (true, d1)
  else (true, d).

(** Lines 259-285: the [try] block. A [KeyError] on [self.ip_features[ip]]
    and any exception of scikit-learn end in [return True]. *)
Definition score_and_decide (ip : string) (d : Detector) : bool * Detector :=
  let all_features := dict_values (ip_features d) in
  if fit_raises all_features then (true, d)
  else
    let d1 := set_fit_calls (cons all_features) d in
    match dict_get ip (ip_features d1) with
    | None => (true, d1)
    | Some x =>
        match score_samples all_features x with
        | None => (true, d1)
        | Some anomaly => decide_inline ip anomaly d1
        end
    end.

Definition _check_anomaly_realtime (ip : string) (d : Detector)
  : bool * Detector :=
  if decide (ip ∈ false_positives d) then (true, d)
  else
    let all_features := dict_values (ip_features d) in
    if (length all_features <? 10)%nat then (true, d)
    else score_and_decide ip d.

(** Lines 130-142: append to the deque and to the timestamps, prune, and
    read the deque again (a [defaultdict] access). *)
Definition store_request (now : Q) (ip : string) (r : TrafficRecord)
    (d : Detector) : Detector :=
  let d1 :=
    set_traffic_data (fun td =>
      let td' := dict_touch [] ip td in
      dict_set ip
        (deque_append (features_window (config d))
           (default [] (dict_get ip td')) r) td') d in
  let d2 :=
    set_ip_timestamps (fun m =>
      let m' := dict_touch [] ip m in
      dict_set ip (default [] (dict_get ip m') ++ [timestamp r]) m') d1 in
  let d3 := _clean_old_data now d2 in
  set_traffic_data (dict_touch [] ip) d3.

(** The guard of line 145. *)
Definition enough_samples (ip : string) (d : Detector) : bool :=
  (Nat.min 5 (features_window (config d)) <=? length (window ip d))%nat.

(** The guard of line 149. *)
Definition scorable (ip : string) (d : Detector) : bool :=
  dict_has ip (ip_features d) && (10 <? length (ip_features d))%nat.

(** The state on which line 149 is evaluated, when line 145 holds. *)
Definition refreshed (now : Q) (ip : string) (r : TrafficRecord)
    (d : Detector) : Detector :=
  _extract_features_for_ip ip (store_request now ip r d).

Definition record_request (now : Q) (ip : string) (timestamp : Q)
    (bytes_sent : Z) (method url : string) (status_code : Z)
    (d : Detector) : bool * Detector :=
  if decide (ip ∈ blocked_ips d) then (false, d)
  else
    let r := {| timestamp := timestamp; bytes := bytes_sent;
                method := method; url := url;
                status_code := status_code |} in
    let d4 := store_request now ip r d in
    if enough_samples ip d4 then
      let d5 := _extract_features_for_ip ip d4 in
      if scorable ip d5 then _check_anomaly_realtime ip d5 else (true, d5)
    else (true, d4).

(** *** Periodic path: one iteration of [_periodic_analysis] *)

(** Lines 353-366: the loop body, for one address and its score. *)
Definition sweep_ip (d : Detector) (entry : string * Q) : Detector :=
  let threshold := block_threshold (config d) in
  if decide (entry.1 ∈ blocked_ips d ∨ entry.1 ∈ false_positives d) then d
  else if Qltb threshold entry.2 then
    let d1 := set_suspicious_ips (fun s => s ∪ {[entry.1]}) d in
    if Qltb (threshold * (13 # 10)) entry.2
    then (_block_ip entry.1 d1).2
    else d1
  else d.

(** Line 340: [np.array([self.ip_features[ip] for ip in ip_list])]. *)
Definition feature_matrix (d : Detector) : list (list Q) :=
  (fun ip => default [] (dict_get ip (ip_features d)))
    <$> dict_keys (ip_features d).

(** The body of the [while] loop after the sleep; [now] is the clock read
    by the final [_clean_old_data]. An exception leaves the iteration. *)
Definition periodic_iteration (now : Q) (d : Detector) : Detector :=
  if (length (ip_features d) <? 5)%nat then d
  else
    let ip_list := dict_keys (ip_features d) in
    let X := feature_matrix d in
    if fit_raises X then d
    else
      let d1 := set_fit_calls (cons X) d in
      match mapM (score_samples X) X with
      | None => d1
      | Some anomaly_scores =>
          _clean_old_data now
            (fold_left sweep_ip (zip ip_list anomaly_scores) d1)
      end.

(** *** Runs *)

Inductive Event :=
| Request (now : Q) (ip : string) (timestamp : Q) (bytes_sent : Z)
    (method url : string) (status_code : Z)
| Unblock (ip : string) (mark_as_false_positive : bool)
| Sweep (now : Q).

Definition step (d : Detector) (ev : Event) : Detector :=
  match ev with
  | Request now ip ts b m u s => (record_request now ip ts b m u s d).2
  | Unblock ip fp => (unblock_ip ip fp d).2
  | Sweep now => periodic_iteration now d
  end.

Definition run (d : Detector) (evs : list Event) : Detector :=
  fold_left step evs d.

End detector.

(** ** Concrete runs *)

Fixpoint row_eqb (x y : list Q) : bool :=
  match x, y with
  | [], [] => true
  | a :: x', b :: y' => Qeq_bool a b && row_eqb x' y'
  | _, _ => false
  end.

(** Square root on rationals: exact on squares of rationals. *)
Definition sqrt_Q (q : Q) : Q :=
  let r := Qred q in (Z.sqrt (Qnum r) # Pos.sqrt (Qden r))%Q.

(** scikit-learn on a population of identical rows: the scaler maps every
    row to zeros, no tree can split, every tree is one leaf holding the whole
    sample, and [score_samples] is [-2^(-1)] for each row. Populations with
    two distinct rows are outside this instance: it raises on them. *)
Definition uniform_numerics : Numerics :=
  {| np_sqrt := sqrt_Q;
     fit_raises := fun _ => false;
     score_samples := fun X x =>
       if forallb (row_eqb x) X then Some (1 # 2)%Q else None |}.

Definition cfg_of (threshold : Q) : Config :=
  {| block_threshold := threshold; window_size := 300; features_window := 100 |}.

(** Five identical requests of one source at clock [t]. *)
Definition burst (t : Q) (ip : string) : list Event :=
  replicate 5 (Request t ip t 100 "GET" "/" 200).

Definition eleven_sources : list string :=
  ["k1"; "k2"; "k3"; "k4"; "k5"; "k6"; "k7"; "k8"; "k9"; "k10"; "k11"]%string.

Definition monotonicity_trace : list Event :=
  (eleven_sources ≫= burst 0)
  ++ (["n1"; "n2"; "n3"; "n4"; "k11"]%string ≫= burst 400)
  ++ [Sweep 401].

Definition cfg_default : Config := cfg_of (4 # 5).

(** Eleven sources send the same burst one after the other, then a twelfth. *)
Definition retrain_prefix : list Event := eleven_sources ≫= burst 0.
Definition retrain_trace : list Event := retrain_prefix ++ burst 0 "k12".

(** One source: five requests at clock 0 and one at clock 1000. *)
Definition stale_trace : list Event :=
  burst 0 "a" ++ [Request 1000 "a" 1000 100 "GET" "/" 200].

(** The record of one request of a burst. *)
Definition burst_record (t : Q) : TrafficRecord :=
  {| timestamp := t; bytes := 100; method := "GET"; url := "/";
     status_code := 200 |}.

(** Ten sources have sent five requests each and ["k11"] four. *)
Definition warm (threshold : Q) (loaded_fp : gset string) : Detector :=
  run (H := uniform_numerics) (init (cfg_of threshold) ∅ loaded_fp)
    (take 54 retrain_prefix).

(** Nine sources have sent five requests each and ["k10"] four. *)
Definition nine_and_four : Detector :=
  run (H := uniform_numerics) (init cfg_default ∅ ∅) (take 49 retrain_prefix).

(** The sixteen bursts of [monotonicity_trace], before its sweep. *)
Definition before_sweep (threshold : Q) : Detector :=
  run (H := uniform_numerics) (init (cfg_of threshold) ∅ ∅)
    (take 80 monotonicity_trace).

(** ** Properties stated on detectors *)

(** The part of the detector outside the traffic store and feature cache. *)
Definition same_registry (d d' : Detector) : Prop :=
  config d' = config d ∧ blocked_ips d' = blocked_ips d
  ∧ suspicious_ips d' = suspicious_ips d
  ∧ false_positives d' = false_positives d
  ∧ fit_calls d' = fit_calls d ∧ save_calls d' = save_calls d.

(** [d'] differs from [d] at most by [ip] having entered [suspicious_ips]
    or [blocked_ips] (and by the two histories). *)
Definition marks_only (ip : string) (d d' : Detector) : Prop :=
  config d' = config d ∧ traffic_data d' = traffic_data d
  ∧ ip_timestamps d' = ip_timestamps d ∧ ip_features d' = ip_features d
  ∧ false_positives d' = false_positives d
  ∧ blocked_ips d ⊆ blocked_ips d'
  ∧ blocked_ips d' ⊆ blocked_ips d ∪ {[ip]}
  ∧ suspicious_ips d ⊆ suspicious_ips d'
  ∧ suspicious_ips d' ⊆ suspicious_ips d ∪ {[ip]}
  ∧ save_calls d ⊆ save_calls d'.

(** The registry only grows from [d] to [d'], and not at a false positive. *)
Definition registry_grows (d d' : Detector) : Prop :=
  config d' = config d ∧ false_positives d' = false_positives d
  ∧ blocked_ips d ⊆ blocked_ips d' ∧ suspicious_ips d ⊆ suspicious_ips d'
  ∧ ∀ k, k ∈ false_positives d →
      (k ∈ blocked_ips d' → k ∈ blocked_ips d)
      ∧ (k ∈ suspicious_ips d' → k ∈ suspicious_ips d).

(** The three dicts have pairwise distinct keys. *)
Definition dicts_wf (d : Detector) : Prop :=
  NoDup (dict_keys (traffic_data d)) ∧ NoDup (dict_keys (ip_timestamps d))
  ∧ NoDup (dict_keys (ip_features d)).

(** The same detector under another [block_threshold]. *)
Definition set_threshold (t : Q) (d : Detector) : Detector :=
  {| config := {| block_threshold := t;
                  window_size := window_size (config d);
                  features_window := features_window (config d) |};
     traffic_data := traffic_data d; ip_timestamps := ip_timestamps d;
     ip_features := ip_features d; blocked_ips := blocked_ips d;
     suspicious_ips := suspicious_ips d;
     false_positives := false_positives d; fit_calls := fit_calls d;
     save_calls := save_calls d |}.

(** [d1] runs under a threshold at most that of [d2], on the same false
    positives, and has blocked at least the addresses [d2] has. *)
Definition stricter (d1 d2 : Detector) : Prop :=
  (block_threshold (config d1) <= block_threshold (config d2))%Q
  ∧ false_positives d1 = false_positives d2
  ∧ blocked_ips d2 ⊆ blocked_ips d1.

(** ** Persistence: [_load_state], [_save_state], [shutdown] *)

(** The content of [ml_ddos_state.json] as [_load_state] reads it: the two
    lists, each possibly absent ([state.get(key, [])]); the [timestamp]
    entry is written and never read. *)
Record StateFile := {
  file_blocked_ips : option (list string);
  file_false_positives : option (list string)
}.

(** [_load_state]: [None] is a missing file, or one on which [open] or
    [json.load] raises; the exception is logged and the sets are kept. *)
Definition _load_state (file : option StateFile) (d : Detector) : Detector :=
  match file with
  | None => d
  | Some f =>
      set_false_positives
        (fun _ => list_to_set (default [] (file_false_positives f)))
        (set_blocked_ips
           (fun _ => list_to_set (default [] (file_blocked_ips f))) d)
  end.

(** What [_save_state] writes for a snapshot: [list(self.blocked_ips)] and
    [list(self.false_positives)]. *)
Definition written_file (snap : gset string * gset string) : StateFile :=
  {| file_blocked_ips := Some (elements snap.1);
     file_false_positives := Some (elements snap.2) |}.

(** The file after the detector has run from [file], every write having
    succeeded: the last snapshot written, or the file as it was. *)
Definition file_after (file : option StateFile) (d : Detector)
  : option StateFile :=
  match save_calls d with
  | [] => file
  | snap :: _ => Some (written_file snap)
  end.

(** [__init__]: empty dicts and sets, then [_load_state]. *)
Definition startup (cfg : Config) (file : option StateFile) : Detector :=
  _load_state file (init cfg ∅ ∅).

(** [MLDDoSDetector.shutdown]: stop the thread, then [_save_state]. *)
Definition shutdown (d : Detector) : Detector := _save_state d.

(** ** The integrator: [DDoSMLIntegrator] *)

(** [request_data]: a dict in which every field may be missing. *)
Record RequestData := {
  rd_ip : option string;
  rd_timestamp : option Q;
  rd_bytes_sent : option Z;
  rd_method : option string;
  rd_url : option string;
  rd_status_code : option Z
}.

Record Integrator := {
  detector : Detector;
  request_count : nat
}.

(** [DDoSMLIntegrator.__init__]: the detector with its default window. *)
Definition integrator_init (threshold : Q) (file : option StateFile)
  : Integrator :=
  {| detector := startup {| block_threshold := threshold; window_size := 300;
                            features_window := 100 |} file;
     request_count := 0 |}.

Definition is_ip_blocked (ip : string) (i : Integrator) : bool :=
  bool_decide (ip ∈ blocked_ips (detector i)).

Section integrator.
Context `{Numerics}.

(** [process_request]; the statistics logged every 1000 requests read
    [get_status] and change nothing. *)
Definition process_request (now : Q) (rd : RequestData) (i : Integrator)
  : bool * Integrator :=
  let count := S (request_count i) in
  match rd_ip rd, rd_timestamp rd, rd_bytes_sent rd with
  | Some ip, Some ts, Some b =>
      let res :=
        record_request now ip ts b (default "GET"%string (rd_method rd))
          (default "/"%string (rd_url rd)) (default 200%Z (rd_status_code rd))
          (detector i) in
      (res.1, {| detector := res.2; request_count := count |})
  | _, _, _ => (true, {| detector := detector i; request_count := count |})
  end.

(** A sequence of calls, each with the clock it reads. *)
Definition process_all (i : Integrator) (calls : list (Q * RequestData))
  : Integrator :=
  fold_left (fun i c => (process_request c.1 c.2 i).2) calls i.

(** The detector events behind a sequence of calls: the calls that carry
    the three required fields, with the defaults filled in. *)
Definition events_of (calls : list (Q * RequestData)) : list Event :=
  omap (fun c : Q * RequestData =>
          match rd_ip c.2, rd_timestamp c.2, rd_bytes_sent c.2 with
          | Some ip, Some ts, Some b =>
              Some (Request c.1 ip ts b (default "GET"%string (rd_method c.2))
                      (default "/"%string (rd_url c.2))
                      (default 200%Z (rd_status_code c.2)))
          | _, _, _ => None
          end) calls.

End integrator.

(** ** Invariants of the store *)

(** No deque exceeds its [maxlen]. *)
Definition windows_bounded (d : Detector) : Prop :=
  ∀ ip, length (window ip d) ≤ features_window (config d).

(** No source is kept with an empty timestamp list. *)
Definition timestamps_nonempty (d : Detector) : Prop :=
  ∀ ip, dict_get ip (ip_timestamps d) ≠ Some [].

(** A source without timestamps has no record and no cached vector. *)
Definition store_consistent (d : Detector) : Prop :=
  ∀ ip, dict_get ip (ip_timestamps d) = None →
    window ip d = [] ∧ dict_get ip (ip_features d) = None.

Definition store_inv (d : Detector) : Prop :=
  dicts_wf d ∧ windows_bounded d ∧ timestamps_nonempty d
  ∧ store_consistent d.

(** What [_clean_old_data] keeps of a timestamp list. *)
Definition kept (cutoff : Q) (timestamps : list Q) : list Q :=
  drop (first_recent cutoff timestamps) timestamps.

(** Lines 130-139: the record appended to the deque of [ip] and its
    timestamp to the timestamp list of [ip]. *)
Definition appended (ip : string) (r : TrafficRecord) (d : Detector)
  : Detector :=
  set_ip_timestamps (fun m =>
    let m' := dict_touch [] ip m in
    dict_set ip (default [] (dict_get ip m') ++ [timestamp r]) m')
    (set_traffic_data (fun td =>
       let td' := dict_touch [] ip td in
       dict_set ip
         (deque_append (features_window (config d))
            (default [] (dict_get ip td')) r) td') d).

(** scikit-learn's [score_samples] lies in [-1, 0): the negated score handed
    to the decision never exceeds 1. *)
Definition scores_at_most_one `{Numerics} : Prop :=
  ∀ X x a, score_samples X x = Some a → (a <= 1)%Q.

(** From [d] to [d'] either the two persisted sets and the history of
    snapshots are as they were, or the last snapshot handed to
    [_save_state] is the pair of sets of [d']. *)
Definition saves_track (d d' : Detector) : Prop :=
  (blocked_ips d' = blocked_ips d ∧ false_positives d' = false_positives d
   ∧ save_calls d' = save_calls d)
  ∨ exists rest,
      save_calls d' = (blocked_ips d', false_positives d') :: rest.

(** Every cached feature vector has the ten features. *)
Definition vectors_complete (d : Detector) : Prop :=
  ∀ ip x, dict_get ip (ip_features d) = Some x → length x = 10.

(** A detector whose deques hold one record. *)
Definition cfg_single : Config :=
  {| block_threshold := 1 # 5; window_size := 300; features_window := 1 |}.

(** ** Proof automation for record updates *)

Ltac unfold_setters :=
  unfold set_traffic_data, set_ip_timestamps, set_ip_features,
    set_blocked_ips, set_suspicious_ips, set_false_positives, set_fit_calls,
    set_save_calls, set_threshold, _save_state in *;
  cbn [config traffic_data ip_timestamps ip_features blocked_ips
       suspicious_ips false_positives fit_calls save_calls block_threshold
       window_size features_window fst snd] in *.

Ltac solve_stricter :=
  unfold stricter, _block_ip in *; repeat case_decide; unfold_setters;
  split_and!; try done; set_solver.

(** * Proofs *)

(** ** Rationals *)

Lemma Qltb_lt x y : Qltb x y = true <-> (x < y)%Q.
Proof.
  unfold Qltb. rewrite negb_true_iff. split.
  - intros H. apply Qnot_le_lt. intros Hle.
    apply Qle_bool_iff in Hle. congruence.
  - intros H. destruct (Qle_bool y x) eqn:E; [|done].
    apply Qle_bool_iff in E. exfalso. eapply Qlt_not_le; eauto.
Qed.

Lemma Qltb_ge x y : Qltb x y = false <-> (y <= x)%Q.
Proof.
  unfold Qltb. rewrite negb_false_iff. apply Qle_bool_iff.
Qed.

(** ** Dictionaries *)

Section dict_facts.
Context {K V : Type} `{EqDecision K}.
Implicit Types (k : K) (v : V) (d : list (K * V)).

Lemma dict_get_None k d : dict_get k d = None <-> k ∉ dict_keys d.
Proof.
  unfold dict_keys. induction d as [|[k' v] d IH]; csimpl.
  - split; [intros _; apply not_elem_of_nil | done].
  - rewrite not_elem_of_cons. case_decide as Hk.
    + split; [done | intros [Hne _]; by destruct Hne].
    + rewrite IH. tauto.
Qed.

Lemma dict_get_Some_key k v d : dict_get k d = Some v -> k ∈ dict_keys d.
Proof.
  intros H. destruct (decide (k ∈ dict_keys d)) as [|Hn]; [done|].
  apply dict_get_None in Hn. congruence.
Qed.

Lemma dict_has_get k d : dict_has k d = true <-> is_Some (dict_get k d).
Proof.
  unfold dict_has. rewrite bool_decide_eq_true.
  rewrite <- not_eq_None_Some, dict_get_None.
  split; [tauto | apply dec_stable].
Qed.

Lemma dict_keys_set k v d :
  dict_keys (dict_set k v d) =
  if bool_decide (k ∈ dict_keys d) then dict_keys d else dict_keys d ++ [k].
Proof.
  unfold dict_keys. induction d as [|[k' v'] d IH]; csimpl; [done|].
  destruct (decide (k = k')) as [->|Hk].
  - rewrite bool_decide_eq_true_2; [done | apply list_elem_of_here].
  - csimpl. rewrite IH. case_bool_decide as Hin.
    + rewrite bool_decide_eq_true_2; [done | by apply list_elem_of_further].
    + rewrite bool_decide_eq_false_2; [done|].
      by rewrite not_elem_of_cons.
Qed.

Lemma dict_get_set k k' v d :
  dict_get k' (dict_set k v d) =
  if decide (k' = k) then Some v else dict_get k' d.
Proof.
  induction d as [|[k0 v0] d IH]; simpl.
  - repeat case_decide; congruence.
  - repeat (case_decide; simpl; subst); try congruence.
Qed.

Lemma dict_keys_del k d :
  dict_keys (dict_del k d) = filter (fun x => x ≠ k) (dict_keys d).
Proof.
  unfold dict_keys. induction d as [|[k' v'] d IH]; csimpl; [done|].
  destruct (decide (k = k')) as [->|Hk].
  - rewrite filter_cons_False; [done | by intros []].
  - rewrite filter_cons_True; [|congruence]. csimpl. by rewrite IH.
Qed.

Lemma dict_get_del k k' d :
  dict_get k' (dict_del k d) =
  if decide (k' = k) then None else dict_get k' d.
Proof.
  induction d as [|[k0 v0] d IH]; simpl.
  - by case_decide.
  - repeat (case_decide; simpl; subst); try congruence.
Qed.

Lemma dict_set_NoDup k v d :
  NoDup (dict_keys d) -> NoDup (dict_keys (dict_set k v d)).
Proof.
  intros Hd. rewrite dict_keys_set. case_bool_decide as Hin; [done|].
  apply NoDup_app. split_and!; [done | | apply NoDup_singleton].
  intros x Hx Hx'. apply list_elem_of_singleton in Hx'. by subst.
Qed.

Lemma dict_del_NoDup k d :
  NoDup (dict_keys d) -> NoDup (dict_keys (dict_del k d)).
Proof. intros Hd. rewrite dict_keys_del. by apply NoDup_filter. Qed.

Lemma dict_touch_NoDup v k d :
  NoDup (dict_keys d) -> NoDup (dict_keys (dict_touch v k d)).
Proof.
  intros Hd. unfold dict_touch. destruct (dict_get k d); [done|].
  by apply dict_set_NoDup.
Qed.

Lemma dict_values_length d : length (dict_values d) = length d.
Proof. unfold dict_values. by rewrite length_fmap. Qed.

Lemma dict_keys_length d : length (dict_keys d) = length d.
Proof. unfold dict_keys. by rewrite length_fmap. Qed.
End dict_facts.

(** ** The registry is outside the reach of the store operations *)

#[local] Instance same_registry_refl : Reflexive same_registry.
Proof. intros d. by repeat split. Qed.

#[local] Instance same_registry_trans : Transitive same_registry.
Proof.
  intros a b c (?&?&?&?&?&?) (?&?&?&?&?&?).
  repeat split; congruence.
Qed.

Lemma fold_left_registry {A} (f : Detector -> A -> Detector) l d :
  (forall d x, same_registry d (f d x)) -> same_registry d (fold_left f l d).
Proof.
  intros Hf. revert d. induction l as [|x l IH]; intros d; simpl; [done|].
  etrans; [apply (Hf d x) | apply IH].
Qed.

Lemma clean_ip_registry cutoff d ip : same_registry d (clean_ip cutoff d ip).
Proof.
  unfold clean_ip.
  repeat (match goal with
          | |- context [match ?x with _ => _ end] => destruct x
          end; simpl); by repeat split.
Qed.

Lemma _clean_old_data_registry now d : same_registry d (_clean_old_data now d).
Proof. apply fold_left_registry, clean_ip_registry. Qed.

Section proofs.
Context `{Numerics}.
Implicit Types (d : Detector) (ip k : string) (r : TrafficRecord).

Lemma _extract_features_for_ip_registry ip d :
  same_registry d (_extract_features_for_ip ip d).
Proof.
  unfold _extract_features_for_ip.
  destruct (_ <? 2)%nat; by repeat split.
Qed.

Lemma store_request_registry now ip r d :
  same_registry d (store_request now ip r d).
Proof.
  unfold store_request.
  match goal with
  | |- same_registry _ (set_traffic_data _ (_clean_old_data _ ?x)) =>
      pose proof (_clean_old_data_registry now x) as (?&?&?&?&?&?)
  end.
  by repeat split.
Qed.

Lemma refreshed_registry now ip r d : same_registry d (refreshed now ip r d).
Proof.
  unfold refreshed. etrans; [apply store_request_registry|].
  apply _extract_features_for_ip_registry.
Qed.

(** ** What a decision may change *)

Lemma marks_only_refl ip d : marks_only ip d d.
Proof. unfold marks_only. split_and!; try done; set_solver. Qed.

Lemma _block_ip_marks ip d : marks_only ip d (_block_ip ip d).2.
Proof.
  unfold _block_ip. case_decide; [apply marks_only_refl|].
  unfold marks_only; simpl. split_and!; try done; set_solver.
Qed.

Lemma decide_inline_marks ip a d : marks_only ip d (decide_inline ip a d).2.
Proof.
  unfold decide_inline.
  destruct (Qltb (block_threshold (config d)) a); [|apply marks_only_refl].
  destruct (Qltb _ a); simpl.
  - unfold _block_ip; simpl. case_decide; unfold marks_only; simpl;
      split_and!; try done; set_solver.
  - unfold marks_only; simpl. split_and!; try done; set_solver.
Qed.

Lemma _check_anomaly_realtime_marks ip d :
  marks_only ip d (_check_anomaly_realtime ip d).2.
Proof.
  unfold _check_anomaly_realtime, score_and_decide.
  case_decide; [apply marks_only_refl|].
  destruct (_ <? 10)%nat; [apply marks_only_refl|].
  destruct (fit_raises _); [apply marks_only_refl|].
  set (d1 := set_fit_calls _ d).
  assert (marks_only ip d d1) as Hd1
    by (unfold marks_only; simpl; split_and!; set_solver).
  destruct (dict_get ip (ip_features d1)) as [x|]; [|done].
  destruct (score_samples _ x) as [a|]; [|done].
  pose proof (decide_inline_marks ip a d1) as Hm.
  unfold marks_only in *. simpl in *. destruct_and!.
  split_and!; try congruence; set_solver.
Qed.

Lemma sweep_ip_marks d entry : marks_only entry.1 d (sweep_ip d entry).
Proof.
  unfold sweep_ip. case_decide; [apply marks_only_refl|].
  destruct (Qltb (block_threshold (config d)) _); [|apply marks_only_refl].
  destruct (Qltb _ _); simpl.
  - unfold _block_ip; simpl. case_decide; unfold marks_only; simpl;
      split_and!; try done; set_solver.
  - unfold marks_only; simpl. split_and!; try done; set_solver.
Qed.

(** ** The registry along the two paths *)

#[local] Instance registry_grows_refl : Reflexive registry_grows.
Proof. intros d. unfold registry_grows. by split_and!. Qed.

#[local] Instance registry_grows_trans : Transitive registry_grows.
Proof.
  intros a b c (Hc1&Hf1&Hb1&Hs1&Hk1) (Hc2&Hf2&Hb2&Hs2&Hk2).
  unfold registry_grows. split_and!; [congruence | congruence | set_solver..|].
  intros k Hk. destruct (Hk1 k Hk) as [??].
  destruct (Hk2 k) as [??]; [by rewrite Hf1|]. split; auto.
Qed.

Lemma same_registry_grows d d' : same_registry d d' -> registry_grows d d'.
Proof.
  intros (?&Hb&Hs&?&?&?). unfold registry_grows.
  rewrite Hb, Hs. by split_and!.
Qed.

Lemma marks_only_grows ip d d' :
  ip ∉ false_positives d -> marks_only ip d d' -> registry_grows d d'.
Proof.
  intros Hfp (?&?&?&?&?&?&?&?&?&?). unfold registry_grows.
  split_and!; try done. intros k Hk. split; set_solver.
Qed.

Lemma fold_left_grows {A} (f : Detector -> A -> Detector) l d :
  (forall d x, registry_grows d (f d x)) -> registry_grows d (fold_left f l d).
Proof.
  intros Hf. revert d. induction l as [|x l IH]; intros d; simpl; [done|].
  etrans; [apply (Hf d x) | apply IH].
Qed.

Lemma _check_anomaly_realtime_fp ip d :
  ip ∈ false_positives d -> _check_anomaly_realtime ip d = (true, d).
Proof. intros Hfp. unfold _check_anomaly_realtime. by case_decide. Qed.

Lemma _check_anomaly_realtime_grows ip d :
  registry_grows d (_check_anomaly_realtime ip d).2.
Proof.
  destruct (decide (ip ∈ false_positives d)) as [Hfp|Hfp].
  - by rewrite _check_anomaly_realtime_fp.
  - eapply marks_only_grows; [done|]. apply _check_anomaly_realtime_marks.
Qed.

Lemma sweep_ip_grows d entry : registry_grows d (sweep_ip d entry).
Proof.
  destruct (decide (entry.1 ∈ false_positives d)) as [Hfp|Hfp].
  - unfold sweep_ip. rewrite decide_True; [done | by right].
  - eapply marks_only_grows; [done|]. apply sweep_ip_marks.
Qed.

Lemma record_request_grows now ip ts b m u s d :
  registry_grows d (record_request now ip ts b m u s d).2.
Proof.
  unfold record_request. case_decide; [done|].
  set (r := Build_TrafficRecord _ _ _ _ _).
  pose proof (store_request_registry now ip r d) as Hs.
  destruct (enough_samples _ _); [|by apply same_registry_grows].
  pose proof (_extract_features_for_ip_registry ip (store_request now ip r d))
    as He.
  assert (registry_grows d (_extract_features_for_ip ip
                              (store_request now ip r d))) as Hg.
  { apply same_registry_grows. by etrans. }
  destruct (scorable _ _); [|done].
  etrans; [exact Hg|]. apply _check_anomaly_realtime_grows.
Qed.

Lemma periodic_iteration_grows now d :
  registry_grows d (periodic_iteration now d).
Proof.
  unfold periodic_iteration. destruct (_ <? 5)%nat; [done|].
  destruct (fit_raises _); [done|].
  set (d1 := set_fit_calls _ d).
  assert (registry_grows d d1) as Hd1.
  { subst d1. unfold registry_grows. by split_and!. }
  destruct (mapM _ _) as [scores|]; [|done].
  etrans; [exact Hd1|].
  etrans; [apply (fold_left_grows sweep_ip), sweep_ip_grows|].
  apply same_registry_grows, _clean_old_data_registry.
Qed.

Lemma unblock_ip_registry ip mark d :
  let d' := (unblock_ip ip mark d).2 in
  config d' = config d ∧ suspicious_ips d' = suspicious_ips d
  ∧ blocked_ips d' ⊆ blocked_ips d
  ∧ false_positives d ⊆ false_positives d'.
Proof.
  unfold unblock_ip. case_decide; [|done].
  destruct mark; simpl; split_and!; try done; set_solver.
Qed.

Lemma record_request_false_positive now ip ts b m u s d :
  ip ∈ false_positives d -> ip ∉ blocked_ips d ->
  (record_request now ip ts b m u s d).1 = true
  ∧ same_registry d (record_request now ip ts b m u s d).2.
Proof.
  intros Hfp Hb. unfold record_request. rewrite decide_False; [|done].
  set (r := Build_TrafficRecord _ _ _ _ _).
  pose proof (store_request_registry now ip r d) as Hs.
  destruct (enough_samples _ _); [|done].
  pose proof (_extract_features_for_ip_registry ip (store_request now ip r d))
    as He.
  assert (same_registry d (_extract_features_for_ip ip
                             (store_request now ip r d))) as Hg.
  { by etrans. }
  destruct (scorable _ _); [|done].
  rewrite _check_anomaly_realtime_fp; [done|].
  destruct Hg as (_&_&_&Hf&_). by rewrite Hf.
Qed.

Lemma step_protected d ev k :
  k ∈ false_positives d -> k ∉ blocked_ips d ->
  k ∈ false_positives (step d ev) ∧ (k ∉ blocked_ips (step d ev))
  ∧ (k ∈ suspicious_ips (step d ev) -> k ∈ suspicious_ips d).
Proof.
  intros Hfp Hb.
  assert (forall d', registry_grows d d' ->
            k ∈ false_positives d' ∧ (k ∉ blocked_ips d')
            ∧ (k ∈ suspicious_ips d' -> k ∈ suspicious_ips d)) as Hgrow.
  { intros d' (_&Hf&_&_&Hk). destruct (Hk k Hfp) as [??].
    rewrite Hf. split_and!; auto. }
  destruct ev as [now ip ts b m u s|ip mark|now]; simpl.
  - apply Hgrow, record_request_grows.
  - pose proof (unblock_ip_registry ip mark d) as (_&Hs&Hbl&Hf).
    simpl in *. rewrite Hs. split_and!; [set_solver..|done].
  - apply Hgrow, periodic_iteration_grows.
Qed.

(** ** Claims on the registry *)

(** C2. A request from a blocked address is refused at once: the call
    returns [False] and the detector is left exactly as it was (nothing is
    appended, pruned, extracted or scored). *)
Theorem blocked_short_circuit now ip ts b m u s d :
  ip ∈ blocked_ips d ->
  record_request now ip ts b m u s d = (false, d)
  ∧ window ip (record_request now ip ts b m u s d).2 = window ip d.
Proof.
  intros Hb. unfold record_request. by rewrite decide_True.
Qed.

(** C9. [unblock_ip] returns [True] exactly when the address was blocked;
    afterwards the address is not blocked; a blocked address unblocked with
    the mark set is a false positive afterwards; on an address that was not
    blocked the call returns [False] and changes nothing, whatever the
    mark. *)
Theorem unblock_ip_spec ip mark d :
  ((unblock_ip ip mark d).1 = true <-> ip ∈ blocked_ips d)
  ∧ (ip ∉ blocked_ips (unblock_ip ip mark d).2)
  ∧ (ip ∈ blocked_ips d -> mark = true ->
     ip ∈ false_positives (unblock_ip ip mark d).2)
  ∧ (ip ∉ blocked_ips d ->
     unblock_ip ip mark d = (false, d)
     ∧ (ip ∈ false_positives (unblock_ip ip mark d).2 ->
        ip ∈ false_positives d)).
Proof.
  unfold unblock_ip. case_decide as Hb; simpl.
  - split_and!; [done | destruct mark; simpl; set_solver | | done].
    intros _ ->. simpl. set_solver.
  - split_and!; [split; [done | tauto] | done | tauto | done].
Qed.

(** C10. The suspicious set only grows: along any sequence of requests,
    unblock calls and sweep iterations (with their pruning), every address
    that was suspicious is still suspicious, and [get_status] still reports
    it; a prune on its own leaves the set as it is. *)
Theorem suspicious_only_grows d evs :
  suspicious_ips d ⊆ suspicious_ips (run d evs)
  ∧ (forall ip, ip ∈ st_suspicious_ips (get_status d) ->
       ip ∈ st_suspicious_ips (get_status (run d evs)))
  ∧ (forall now,
       suspicious_ips (_clean_old_data now (run d evs))
       = suspicious_ips (run d evs)).
Proof.
  assert (suspicious_ips d ⊆ suspicious_ips (run d evs)) as Hsub.
  { unfold run. revert d. induction evs as [|ev evs IH]; intros d; simpl.
    - done.
    - etrans; [|apply IH].
      destruct ev as [now ip ts b m u s|ip mark|now]; simpl.
      + by destruct (record_request_grows now ip ts b m u s d) as (_&_&_&?&_).
      + by destruct (unblock_ip_registry ip mark d) as (_&->&_).
      + by destruct (periodic_iteration_grows now d) as (_&_&_&?&_). }
  split_and!; [done | |].
  - intros ip. unfold get_status; simpl.
    rewrite !elem_of_elements. apply Hsub.
  - intros now.
    by destruct (_clean_old_data_registry now (run d evs)) as (_&_&?&_).
Qed.

(** C3. A false positive that is not blocked stays so along any sequence
    of requests, unblock calls and sweep iterations: it is never blocked and
    never newly marked suspicious, by either path; and each of its requests
    is allowed without any training or scoring, the registry being left as
    it was. *)
Theorem false_positive_override d evs ip :
  ip ∈ false_positives d -> ip ∉ blocked_ips d ->
  let d' := run d evs in
  ip ∈ false_positives d' ∧ (ip ∉ blocked_ips d')
  ∧ (ip ∈ suspicious_ips d' -> ip ∈ suspicious_ips d)
  ∧ forall now ts b m u s,
      (record_request now ip ts b m u s d').1 = true
      ∧ same_registry d' (record_request now ip ts b m u s d').2.
Proof.
  intros Hfp Hb. simpl.
  assert (ip ∈ false_positives (run d evs) ∧ (ip ∉ blocked_ips (run d evs))
          ∧ (ip ∈ suspicious_ips (run d evs) -> ip ∈ suspicious_ips d))
    as (Hfp'&Hb'&Hs').
  { unfold run. revert d Hfp Hb.
    induction evs as [|ev evs IH]; intros d Hfp Hb; simpl; [done|].
    destruct (step_protected d ev ip Hfp Hb) as (Hf1&Hb1&Hs1).
    destruct (IH _ Hf1 Hb1) as (?&?&?). split_and!; auto. }
  split_and!; try done.
  intros now ts b m u s. by apply record_request_false_positive.
Qed.

(** ** The decision policy *)

Lemma decide_inline_spec ip a d :
  ip ∉ blocked_ips d ->
  let r := decide_inline ip a d in
  let th := block_threshold (config d) in
  ((th < a)%Q ->
     ip ∈ suspicious_ips r.2
     ∧ (ip ∈ blocked_ips r.2 <-> (th * (15 # 10) < a)%Q)
     ∧ (r.1 = false <-> (th * (15 # 10) < a)%Q)
     ∧ ((th * (15 # 10) < a)%Q ->
        head (save_calls r.2) = Some (blocked_ips r.2, false_positives r.2)))
  ∧ ((a <= th)%Q -> r = (true, d)).
Proof.
  intros Hb. simpl. unfold decide_inline.
  destruct (Qltb (block_threshold (config d)) a) eqn:E1.
  - apply Qltb_lt in E1. split; [intros _|].
    + destruct (Qltb _ a) eqn:E2.
      * apply Qltb_lt in E2. unfold _block_ip; simpl.
        rewrite decide_False; [|done]. simpl.
        split_and!; [set_solver | split; [done | set_solver] | done | done].
      * apply Qltb_ge in E2. simpl.
        split_and!; [set_solver | | |].
        -- split; [by intros ? | intros Hlt].
           exfalso. eapply Qlt_not_le; eauto.
        -- split; [done | intros Hlt].
           exfalso. eapply Qlt_not_le; eauto.
        -- intros Hlt. exfalso. eapply Qlt_not_le; eauto.
    + intros Hle. exfalso. eapply Qlt_not_le; eauto.
  - apply Qltb_ge in E1. split; [|done].
    intros Hlt. exfalso. eapply Qlt_not_le; eauto.
Qed.

Lemma sweep_ip_at d ip a :
  ip ∉ blocked_ips d -> ip ∉ false_positives d ->
  let d' := sweep_ip d (ip, a) in
  let th := block_threshold (config d) in
  ((th < a)%Q ->
     ip ∈ suspicious_ips d'
     ∧ (ip ∈ blocked_ips d' <-> (th * (13 # 10) < a)%Q)
     ∧ ((th * (13 # 10) < a)%Q ->
        exists snap, snap ∈ save_calls d' ∧ ip ∈ snap.1))
  ∧ ((a <= th)%Q -> d' = d).
Proof.
  intros Hb Hfp. simpl. unfold sweep_ip; simpl.
  rewrite decide_False; [|tauto].
  destruct (Qltb (block_threshold (config d)) a) eqn:E1.
  - apply Qltb_lt in E1. split; [intros _|].
    + destruct (Qltb _ a) eqn:E2.
      * apply Qltb_lt in E2. unfold _block_ip; simpl.
        rewrite decide_False; [|done]. simpl.
        split_and!; [set_solver | split; [done | set_solver] |].
        intros _. eexists. split; [apply list_elem_of_here|]. simpl.
        set_solver.
      * apply Qltb_ge in E2. simpl.
        split_and!; [set_solver | |].
        -- split; [by intros ? | intros Hlt].
           exfalso. eapply Qlt_not_le; eauto.
        -- intros Hlt. exfalso. eapply Qlt_not_le; eauto.
    + intros Hle. exfalso. eapply Qlt_not_le; eauto.
  - apply Qltb_ge in E1. split; [|done].
    intros Hlt. exfalso. eapply Qlt_not_le; eauto.
Qed.

Lemma marks_only_other ip k d d' :
  marks_only ip d d' -> k ≠ ip ->
  (k ∈ blocked_ips d' <-> k ∈ blocked_ips d)
  ∧ (k ∈ suspicious_ips d' <-> k ∈ suspicious_ips d).
Proof.
  intros (_&_&_&_&_&Hb1&Hb2&Hs1&Hs2&_) Hne. split; set_solver.
Qed.

(** The loop leaves alone the addresses it does not visit. *)
Lemma sweep_fold_other entries d ip :
  ip ∉ entries.*1 ->
  let d' := fold_left sweep_ip entries d in
  config d' = config d ∧ false_positives d' = false_positives d
  ∧ (ip ∈ blocked_ips d' <-> ip ∈ blocked_ips d)
  ∧ (ip ∈ suspicious_ips d' <-> ip ∈ suspicious_ips d)
  ∧ save_calls d ⊆ save_calls d'.
Proof.
  simpl. revert d. induction entries as [|e es IH]; intros d Hnin; csimpl.
  - by split_and!.
  - csimpl in Hnin. apply not_elem_of_cons in Hnin as [Hne Hnin].
    destruct (IH (sweep_ip d e) Hnin) as (Hc&Hf&Hb&Hs&Hsv).
    pose proof (sweep_ip_marks d e) as Hm.
    destruct (marks_only_other _ ip _ _ Hm Hne) as [Hb0 Hs0].
    destruct Hm as (Hc'&_&_&_&Hf'&_&_&_&_&Hsv').
    rewrite Hc, Hf, Hb, Hs, Hb0, Hs0. split_and!; try done.
    by etrans.
Qed.

Lemma sweep_fold_at entries d ip a :
  NoDup entries.*1 -> (ip, a) ∈ entries ->
  ip ∉ blocked_ips d -> ip ∉ false_positives d ->
  let d' := fold_left sweep_ip entries d in
  let th := block_threshold (config d) in
  ((th < a)%Q ->
     ip ∈ suspicious_ips d'
     ∧ (ip ∈ blocked_ips d' <-> (th * (13 # 10) < a)%Q)
     ∧ ((th * (13 # 10) < a)%Q ->
        exists snap, snap ∈ save_calls d' ∧ ip ∈ snap.1))
  ∧ ((a <= th)%Q ->
     (ip ∉ blocked_ips d')
     ∧ (ip ∈ suspicious_ips d' <-> ip ∈ suspicious_ips d)).
Proof.
  simpl. revert d.
  induction entries as [|e es IH]; intros d Hnd Hin Hb Hfp; csimpl.
  { by apply elem_of_nil in Hin. }
  csimpl in Hnd. apply NoDup_cons in Hnd as [Hne Hnd].
  apply elem_of_cons in Hin as [<-|Hin].
  - destruct (sweep_fold_other es (sweep_ip d (ip, a)) ip Hne)
      as (_&_&Hb'&Hs'&Hsv).
    destruct (sweep_ip_at d ip a Hb Hfp) as [Hhi Hlo].
    cbv zeta in Hhi, Hlo. rewrite Hb', Hs'. split.
    + intros Hlt. destruct (Hhi Hlt) as (?&?&Hsnap). split_and!; [done..|].
      intros H13. destruct (Hsnap H13) as (snap&?&?).
      exists snap. split; [by apply Hsv | done].
    + intros Hle. by rewrite (Hlo Hle).
  - assert (ip ≠ e.1) as Hneq.
    { intros ->. apply Hne. by apply (list_elem_of_fmap_2 fst) in Hin. }
    pose proof (sweep_ip_marks d e) as Hm.
    destruct (marks_only_other _ ip _ _ Hm Hneq) as [Hb0 Hs0].
    destruct Hm as (Hc&_&_&_&Hf&_).
    destruct (IH (sweep_ip d e) Hnd Hin) as [Hhi Hlo];
      [by rewrite Hb0 | by rewrite Hf |].
    rewrite Hc in Hhi, Hlo. split.
    + done.
    + intros Hle. destruct (Hlo Hle) as [? Hiff]. split; [done|].
      by rewrite Hiff.
Qed.

Lemma feature_matrix_length d : length (feature_matrix d) = length (ip_features d).
Proof. unfold feature_matrix. by rewrite length_fmap, dict_keys_length. Qed.

(** C5. A scored address that is neither blocked nor a false positive:
    above the threshold it is marked suspicious, and it is blocked (the
    request refused, the registry handed to [_save_state]) exactly when its
    score also exceeds 1.5 times the threshold on the inline path, 1.3 times
    on the sweep; at or below the threshold the request is allowed and
    neither the registry nor the store changes (the inline call has only
    refitted the model before scoring). *)
Theorem decision_policy :
  (forall ip d x a,
     ip ∉ blocked_ips d -> ip ∉ false_positives d ->
     (10 <= length (ip_features d))%nat ->
     fit_raises (dict_values (ip_features d)) = false ->
     dict_get ip (ip_features d) = Some x ->
     score_samples (dict_values (ip_features d)) x = Some a ->
     let r := _check_anomaly_realtime ip d in
     let th := block_threshold (config d) in
     ((th < a)%Q ->
        ip ∈ suspicious_ips r.2
        ∧ (ip ∈ blocked_ips r.2 <-> (th * (15 # 10) < a)%Q)
        ∧ (r.1 = false <-> (th * (15 # 10) < a)%Q)
        ∧ ((th * (15 # 10) < a)%Q ->
           head (save_calls r.2)
           = Some (blocked_ips r.2, false_positives r.2)))
     ∧ ((a <= th)%Q ->
        r = (true, set_fit_calls (cons (dict_values (ip_features d))) d)))
  ∧ (forall now d scores i ip a,
     NoDup (dict_keys (ip_features d)) ->
     (5 <= length (ip_features d))%nat ->
     fit_raises (feature_matrix d) = false ->
     mapM (score_samples (feature_matrix d)) (feature_matrix d)
     = Some scores ->
     dict_keys (ip_features d) !! i = Some ip -> scores !! i = Some a ->
     ip ∉ blocked_ips d -> ip ∉ false_positives d ->
     let d' := periodic_iteration now d in
     let th := block_threshold (config d) in
     ((th < a)%Q ->
        ip ∈ suspicious_ips d'
        ∧ (ip ∈ blocked_ips d' <-> (th * (13 # 10) < a)%Q)
        ∧ ((th * (13 # 10) < a)%Q ->
           exists snap, snap ∈ save_calls d' ∧ ip ∈ snap.1))
     ∧ ((a <= th)%Q ->
        (ip ∉ blocked_ips d')
        ∧ (ip ∈ suspicious_ips d' <-> ip ∈ suspicious_ips d))).
Proof.
  split.
  - intros ip d x a Hb Hfp Hlen Hfit Hx Ha. simpl.
    unfold _check_anomaly_realtime, score_and_decide.
    rewrite decide_False; [|done].
    rewrite dict_values_length.
    destruct (Nat.ltb_spec (length (ip_features d)) 10) as [Hlt|_]; [lia|].
    rewrite Hfit. simpl. rewrite Hx, Ha.
    apply (decide_inline_spec ip a
             (set_fit_calls (cons (dict_values (ip_features d))) d)).
    done.
  - intros now d scores i ip a Hnd Hlen Hfit Hsc Hi Ha Hb Hfp. simpl.
    unfold periodic_iteration.
    destruct (Nat.ltb_spec (length (ip_features d)) 5) as [Hlt|_]; [lia|].
    rewrite Hfit, Hsc.
    set (d1 := set_fit_calls (cons (feature_matrix d)) d).
    set (entries := zip (dict_keys (ip_features d)) scores).
    destruct (_clean_old_data_registry now (fold_left sweep_ip entries d1))
      as (_&Hcb&Hcs&_&_&Hcv).
    rewrite Hcb, Hcs, Hcv.
    apply (sweep_fold_at entries d1 ip a); [| |done|done].
    + subst entries. rewrite fst_zip; [done|].
      apply length_mapM in Hsc.
      rewrite feature_matrix_length in Hsc.
      rewrite dict_keys_length. lia.
    + apply (list_elem_of_lookup_2 _ i). subst entries.
      apply lookup_zip_with_Some. by exists ip, a.
Qed.

Lemma decide_inline_fit_calls ip a d :
  fit_calls (decide_inline ip a d).2 = fit_calls d.
Proof.
  unfold decide_inline, _block_ip.
  repeat (match goal with
          | |- context [if ?x then _ else _] => destruct x
          end; simpl); done.
Qed.

Lemma sweep_fold_fit_calls entries d :
  fit_calls (fold_left sweep_ip entries d) = fit_calls d.
Proof.
  revert d. induction entries as [|e es IH]; intros d; simpl; [done|].
  rewrite IH. unfold sweep_ip, _block_ip.
  repeat (match goal with
          | |- context [if ?x then _ else _] => destruct x
          end; simpl); done.
Qed.

(** Line 149 as it stands: with at most ten cached vectors after the
    refresh, the request is allowed and the refreshed state returned. *)
Lemma record_request_unscored now ip ts b m u s d :
  ip ∉ blocked_ips d ->
  let r := {| timestamp := ts; bytes := b; method := m; url := u;
              status_code := s |} in
  enough_samples ip (store_request now ip r d) = true ->
  (length (ip_features (refreshed now ip r d)) <= 10)%nat ->
  record_request now ip ts b m u s d = (true, refreshed now ip r d).
Proof.
  intros Hb r Hen Hle.
  unfold record_request. rewrite decide_False; [|done].
  fold r. rewrite Hen. fold (refreshed now ip r d).
  unfold scorable.
  destruct (Nat.ltb_spec 10 (length (ip_features (refreshed now ip r d))));
    [lia|].
  by rewrite andb_false_r.
Qed.

(** C4, as the code has it. A request that passes the sample guard of
    line 145: with fewer than ten cached vectors after the refresh it is
    allowed without scoring; with more than ten, a cached vector for the
    address and the address not a false positive, the [try] block (training,
    scoring, decision) runs; a false positive is allowed without scoring. *)
Theorem inline_population_gate now ip ts b m u s d :
  ip ∉ blocked_ips d ->
  let r := {| timestamp := ts; bytes := b; method := m; url := u;
              status_code := s |} in
  enough_samples ip (store_request now ip r d) = true ->
  let d5 := refreshed now ip r d in
  ((length (ip_features d5) < 10)%nat ->
     record_request now ip ts b m u s d = (true, d5))
  ∧ ((10 < length (ip_features d5))%nat ->
     dict_has ip (ip_features d5) = true -> ip ∉ false_positives d ->
     record_request now ip ts b m u s d = score_and_decide ip d5)
  ∧ (ip ∈ false_positives d ->
     record_request now ip ts b m u s d = (true, d5)).
Proof.
  intros Hb r Hen d5. split_and!.
  - intros Hlt. apply record_request_unscored; [done | done |].
    fold r d5. lia.
  - intros Hlt Hhas Hfp.
    pose proof (refreshed_registry now ip r d) as (_&_&_&Hf&_).
    fold d5 in Hf.
    unfold record_request. rewrite decide_False; [|done].
    fold r. rewrite Hen. fold (refreshed now ip r d). fold d5.
    unfold scorable, _check_anomaly_realtime.
    rewrite dict_values_length, Hhas.
    destruct (Nat.ltb_spec 10 (length (ip_features d5))); [|lia]. simpl.
    rewrite decide_False; [|by rewrite Hf].
    destruct (Nat.ltb_spec (length (ip_features d5)) 10); [lia|done].
  - intros Hfp.
    pose proof (refreshed_registry now ip r d) as (_&_&_&Hf&_).
    fold d5 in Hf.
    unfold record_request. rewrite decide_False; [|done].
    fold r. rewrite Hen. fold (refreshed now ip r d). fold d5.
    destruct (scorable _ _); [|done].
    rewrite _check_anomaly_realtime_fp; [done | by rewrite Hf].
Qed.

(** C7. Every inline call that reaches scoring refits the scaler and the
    forest on the current population, whatever was fitted before; so does
    every sweep iteration with at least five cached vectors; [unblock_ip]
    never does. *)
Theorem retraining_on_every_scoring_call :
  (forall now ip ts b m u s d,
     ip ∉ blocked_ips d -> ip ∉ false_positives d ->
     let r := {| timestamp := ts; bytes := b; method := m; url := u;
                 status_code := s |} in
     enough_samples ip (store_request now ip r d) = true ->
     let d5 := refreshed now ip r d in
     scorable ip d5 = true ->
     fit_raises (dict_values (ip_features d5)) = false ->
     fit_calls (record_request now ip ts b m u s d).2
     = dict_values (ip_features d5) :: fit_calls d)
  ∧ (forall now d,
     (5 <= length (ip_features d))%nat ->
     fit_raises (feature_matrix d) = false ->
     fit_calls (periodic_iteration now d) = feature_matrix d :: fit_calls d)
  ∧ (forall ip mark d, fit_calls (unblock_ip ip mark d).2 = fit_calls d).
Proof.
  split_and!.
  - intros now ip ts b m u s d Hb Hfp r Hen d5 Hsc Hfit.
    pose proof (refreshed_registry now ip r d) as (_&_&_&Hf&Hfc&_).
    fold d5 in Hf, Hfc.
    unfold record_request. rewrite decide_False; [|done].
    fold r. rewrite Hen. fold (refreshed now ip r d). fold d5.
    rewrite Hsc. unfold scorable in Hsc.
    apply andb_true_iff in Hsc as [_ Hlen]. apply Nat.ltb_lt in Hlen.
    unfold _check_anomaly_realtime, score_and_decide.
    rewrite decide_False; [|by rewrite Hf].
    rewrite dict_values_length.
    destruct (Nat.ltb_spec (length (ip_features d5)) 10); [lia|].
    rewrite Hfit. simpl.
    destruct (dict_get ip (ip_features d5)) as [x|]; simpl; [|by rewrite Hfc].
    destruct (score_samples _ x) as [a|]; simpl; [|by rewrite Hfc].
    rewrite decide_inline_fit_calls. simpl. by rewrite Hfc.
  - intros now d Hlen Hfit. unfold periodic_iteration.
    destruct (Nat.ltb_spec (length (ip_features d)) 5); [lia|].
    rewrite Hfit. destruct (mapM _ _) as [scores|]; [|done].
    destruct (_clean_old_data_registry now
                (fold_left sweep_ip
                   (zip (dict_keys (ip_features d)) scores)
                   (set_fit_calls (cons (feature_matrix d)) d)))
      as (_&_&_&_&Hfc&_).
    rewrite Hfc. by rewrite sweep_fold_fit_calls.
  - intros ip mark d. unfold unblock_ip. case_decide; [|done].
    by destruct mark.
Qed.

(** ** One step under two thresholds *)

Lemma Qltb_mono t1 t2 a :
  (t1 <= t2)%Q -> Qltb t2 a = true -> Qltb t1 a = true.
Proof.
  rewrite !Qltb_lt. intros Hle Hlt. eapply Qle_lt_trans; eauto.
Qed.

Lemma Qltb_scale_mono t1 t2 c a :
  (t1 <= t2)%Q -> (0 <= c)%Q ->
  Qltb (t2 * c) a = true -> Qltb (t1 * c) a = true.
Proof.
  intros Hle Hc. apply Qltb_mono. by apply Qmult_le_compat_r.
Qed.

Lemma clean_ip_threshold t cutoff d ip :
  clean_ip cutoff (set_threshold t d) ip
  = set_threshold t (clean_ip cutoff d ip).
Proof.
  unfold clean_ip. unfold_setters.
  destruct (default [] (dict_get ip (dict_touch [] ip (ip_timestamps d))))
    as [|q l]; [done|].
  destruct (0 <? _)%nat; [|done].
  destruct (drop _ _); [|done].
  destruct (dict_has ip (traffic_data d)); unfold_setters;
    destruct (dict_has ip (ip_features d)); done.
Qed.

Lemma _clean_old_data_threshold t now d :
  _clean_old_data now (set_threshold t d)
  = set_threshold t (_clean_old_data now d).
Proof.
  unfold _clean_old_data. simpl.
  generalize (dict_keys (ip_timestamps d)) as ips.
  generalize (now - window_size (config d))%Q as cutoff.
  intros cutoff ips. revert d.
  induction ips as [|ip ips IH]; intros d; simpl; [done|].
  by rewrite clean_ip_threshold, IH.
Qed.

Lemma store_request_threshold t now ip r d :
  store_request now ip r (set_threshold t d)
  = set_threshold t (store_request now ip r d).
Proof.
  unfold store_request. simpl.
  match goal with
  | |- set_traffic_data _ (_clean_old_data _ ?x) = _ =>
      change x with (set_threshold t
        (set_ip_timestamps (fun m =>
           let m' := dict_touch [] ip m in
           dict_set ip (default [] (dict_get ip m') ++ [timestamp r]) m')
           (set_traffic_data (fun td =>
              let td' := dict_touch [] ip td in
              dict_set ip
                (deque_append (features_window (config d))
                   (default [] (dict_get ip td')) r) td') d)))
  end.
  by rewrite _clean_old_data_threshold.
Qed.

Lemma _extract_features_for_ip_threshold t ip d :
  _extract_features_for_ip ip (set_threshold t d)
  = set_threshold t (_extract_features_for_ip ip d).
Proof.
  unfold _extract_features_for_ip, window. simpl.
  by destruct (_ <? 2)%nat.
Qed.

Lemma _block_ip_stricter ip d1 d2 :
  stricter d1 d2 -> stricter (_block_ip ip d1).2 (_block_ip ip d2).2.
Proof. intros (Ht&Hf&Hb). solve_stricter. Qed.

Lemma decide_inline_stricter ip a d1 d2 :
  stricter d1 d2 ->
  stricter (decide_inline ip a d1).2 (decide_inline ip a d2).2.
Proof.
  intros (Ht&Hf&Hb). unfold decide_inline.
  pose proof (Qltb_mono _ _ a Ht) as H1.
  pose proof (Qltb_scale_mono _ _ (15 # 10) a Ht ltac:(done)) as H2.
  destruct (Qltb (block_threshold (config d2)) a),
    (Qltb (block_threshold (config d2) * (15 # 10)) a),
    (Qltb (block_threshold (config d1)) a),
    (Qltb (block_threshold (config d1) * (15 # 10)) a);
    try (specialize (H1 eq_refl); discriminate);
    try (specialize (H2 eq_refl); discriminate);
    clear H1 H2; solve_stricter.
Qed.

Lemma sweep_ip_stricter e d1 d2 :
  stricter d1 d2 -> stricter (sweep_ip d1 e) (sweep_ip d2 e).
Proof.
  intros (Ht&Hf&Hb). unfold sweep_ip.
  pose proof (Qltb_mono _ _ e.2 Ht) as H1.
  pose proof (Qltb_scale_mono _ _ (13 # 10) e.2 Ht ltac:(done)) as H2.
  destruct (Qltb (block_threshold (config d2)) e.2),
    (Qltb (block_threshold (config d2) * (13 # 10)) e.2),
    (Qltb (block_threshold (config d1)) e.2),
    (Qltb (block_threshold (config d1) * (13 # 10)) e.2);
    try (specialize (H1 eq_refl); discriminate);
    try (specialize (H2 eq_refl); discriminate);
    clear H1 H2; solve_stricter.
Qed.

Lemma sweep_fold_stricter entries d1 d2 :
  stricter d1 d2 ->
  stricter (fold_left sweep_ip entries d1) (fold_left sweep_ip entries d2).
Proof.
  revert d1 d2. induction entries as [|e es IH]; intros d1 d2 Hs; simpl.
  - done.
  - by apply IH, sweep_ip_stricter.
Qed.

Lemma _check_anomaly_realtime_stricter t1 t2 ip d :
  (t1 <= t2)%Q ->
  stricter (_check_anomaly_realtime ip (set_threshold t1 d)).2
           (_check_anomaly_realtime ip (set_threshold t2 d)).2.
Proof.
  intros Ht.
  assert (forall d0, stricter (set_threshold t1 d0) (set_threshold t2 d0))
    as Hbase by (intros d0; solve_stricter).
  unfold _check_anomaly_realtime, score_and_decide. simpl.
  case_decide; [apply Hbase|].
  destruct (_ <? 10)%nat; [apply Hbase|].
  destruct (fit_raises _); [apply Hbase|]. simpl.
  destruct (dict_get ip (ip_features d)) as [x|];
    [|apply (Hbase (set_fit_calls _ d))].
  destruct (score_samples _ x) as [a|];
    [|apply (Hbase (set_fit_calls _ d))].
  apply decide_inline_stricter.
  apply (Hbase (set_fit_calls _ d)).
Qed.

(** C6, as the code has it. From one and the same detector state, one
    operation (a request, an unblock call, a sweep iteration) run under the
    higher of two thresholds blocks only addresses that the same operation
    run under the lower threshold blocks too; so it leaves at most as many
    addresses blocked. *)
Theorem threshold_monotone_step t1 t2 d ev :
  (t1 <= t2)%Q ->
  blocked_ips (step (set_threshold t2 d) ev)
    ⊆ blocked_ips (step (set_threshold t1 d) ev)
  ∧ (size (blocked_ips (step (set_threshold t2 d) ev))
     <= size (blocked_ips (step (set_threshold t1 d) ev)))%nat.
Proof.
  intros Ht.
  assert (blocked_ips (step (set_threshold t2 d) ev)
            ⊆ blocked_ips (step (set_threshold t1 d) ev)) as Hsub.
  { destruct ev as [now ip ts b m u s|ip mark|now]; simpl.
    - unfold record_request. simpl. case_decide; [done|].
      set (r := Build_TrafficRecord _ _ _ _ _).
      rewrite !store_request_threshold.
      unfold enough_samples, window. simpl.
      fold (window ip (store_request now ip r d)).
      destruct (_ <=? _)%nat; [|done].
      rewrite !_extract_features_for_ip_threshold.
      unfold scorable. simpl. destruct (_ && _); [|done].
      by destruct (_check_anomaly_realtime_stricter t1 t2 ip
                     (_extract_features_for_ip ip
                        (store_request now ip r d)) Ht) as (_&_&?).
    - unfold unblock_ip. simpl. case_decide; [|done]. by destruct mark.
    - unfold periodic_iteration. simpl. destruct (_ <? 5)%nat; [done|].
      change (feature_matrix (set_threshold t2 d)) with (feature_matrix d).
      change (feature_matrix (set_threshold t1 d)) with (feature_matrix d).
      destruct (fit_raises _); [done|].
      destruct (mapM _ _) as [scores|]; [|done].
      set (entries := zip _ scores).
      set (d2 := set_fit_calls _ (set_threshold t2 d)).
      set (d1 := set_fit_calls _ (set_threshold t1 d)).
      destruct (_clean_old_data_registry now (fold_left sweep_ip entries d2))
        as (_&->&_).
      destruct (_clean_old_data_registry now (fold_left sweep_ip entries d1))
        as (_&->&_).
      assert (stricter d1 d2) as Hs by (subst d1 d2; solve_stricter).
      by destruct (sweep_fold_stricter entries d1 d2 Hs) as (_&_&?). }
  split; [done | by apply subseteq_size].
Qed.

(** ** Dict keys stay pairwise distinct *)

Lemma fold_left_wf {A} (f : Detector -> A -> Detector) l d :
  (forall d x, dicts_wf d -> dicts_wf (f d x)) ->
  dicts_wf d -> dicts_wf (fold_left f l d).
Proof.
  intros Hf. revert d. induction l as [|x l IH]; intros d Hd; simpl; auto.
Qed.

Lemma clean_ip_wf cutoff d ip : dicts_wf d -> dicts_wf (clean_ip cutoff d ip).
Proof.
  intros (Ht&Hts&Hfe). unfold clean_ip. unfold_setters.
  destruct (default [] (dict_get ip (dict_touch [] ip (ip_timestamps d))))
    as [|q l].
  { unfold dicts_wf; unfold_setters. auto using dict_touch_NoDup. }
  destruct (0 <? _)%nat.
  2: { unfold dicts_wf; unfold_setters. auto using dict_touch_NoDup. }
  destruct (drop _ _).
  2: { unfold dicts_wf; unfold_setters.
       auto using dict_touch_NoDup, dict_set_NoDup. }
  destruct (dict_has ip (traffic_data d)); unfold_setters;
    destruct (dict_has ip (ip_features d)); unfold dicts_wf; unfold_setters;
    auto 10 using dict_touch_NoDup, dict_set_NoDup, dict_del_NoDup.
Qed.

Lemma _clean_old_data_wf now d : dicts_wf d -> dicts_wf (_clean_old_data now d).
Proof. apply fold_left_wf. intros ??. apply clean_ip_wf. Qed.

Lemma store_request_wf now ip r d :
  dicts_wf d -> dicts_wf (store_request now ip r d).
Proof.
  intros (Ht&Hts&Hfe). unfold store_request.
  match goal with
  | |- dicts_wf (set_traffic_data _ (_clean_old_data _ ?x)) =>
      assert (dicts_wf x) as Hx
  end.
  { unfold dicts_wf; unfold_setters.
    auto using dict_touch_NoDup, dict_set_NoDup. }
  apply (_clean_old_data_wf now) in Hx. destruct Hx as (?&?&?).
  unfold dicts_wf; unfold_setters. auto using dict_touch_NoDup.
Qed.

Lemma _extract_features_for_ip_wf ip d :
  dicts_wf d -> dicts_wf (_extract_features_for_ip ip d).
Proof.
  intros (Ht&Hts&Hfe). unfold _extract_features_for_ip.
  destruct (_ <? 2)%nat; unfold dicts_wf; unfold_setters;
    auto using dict_touch_NoDup, dict_set_NoDup.
Qed.

Lemma marks_only_wf ip d d' : marks_only ip d d' -> dicts_wf d -> dicts_wf d'.
Proof.
  intros (_&Ht&Hts&Hfe&_) Hd. unfold dicts_wf. by rewrite Ht, Hts, Hfe.
Qed.

Lemma step_wf d ev : dicts_wf d -> dicts_wf (step d ev).
Proof.
  intros Hd. destruct ev as [now ip ts b m u s|ip mark|now]; simpl.
  - unfold record_request. case_decide; [done|].
    set (r := Build_TrafficRecord _ _ _ _ _).
    pose proof (store_request_wf now ip r d Hd) as H4.
    destruct (enough_samples _ _); [|done].
    apply (_extract_features_for_ip_wf ip) in H4.
    destruct (scorable _ _); [|done].
    eapply marks_only_wf; [apply _check_anomaly_realtime_marks | done].
  - unfold unblock_ip. case_decide; [|done]. by destruct mark.
  - unfold periodic_iteration. destruct (_ <? 5)%nat; [done|].
    destruct (fit_raises _); [done|].
    destruct (mapM _ _) as [scores|]; [|done].
    apply _clean_old_data_wf, fold_left_wf; [|done].
    intros d0 e. apply marks_only_wf with (ip := e.1), sweep_ip_marks.
Qed.

Lemma run_wf d evs : dicts_wf d -> dicts_wf (run d evs).
Proof.
  unfold run. revert d. induction evs as [|ev evs IH]; intros d Hd; simpl.
  - done.
  - by apply IH, step_wf.
Qed.

Lemma init_wf cfg lb lf : dicts_wf (init cfg lb lf).
Proof. unfold dicts_wf, init; simpl. split_and!; apply NoDup_nil_2. Qed.

(** C8, as the code has it. In every state the detector reaches,
    [monitoring_ips] is the number of addresses that have a cached feature
    vector (the size of the key set of [ip_features]). *)
Theorem monitoring_counts_cached_vectors cfg lb lf evs :
  let d := run (init cfg lb lf) evs in
  st_monitoring_ips (get_status d)
  = size (list_to_set (dict_keys (ip_features d)) : gset string).
Proof.
  simpl. destruct (run_wf (init cfg lb lf) evs (init_wf cfg lb lf))
    as (_&_&Hfe).
  rewrite size_list_to_set; [|done]. by rewrite dict_keys_length.
Qed.

(** ** What the prune does remove *)

Lemma dict_get_touch_ne {V} (v : V) (k k' : string) (m : list (string * V)) :
  k ≠ k' -> dict_get k' (dict_touch v k m) = dict_get k' m.
Proof.
  intros Hne. unfold dict_touch. destruct (dict_get k m); [done|].
  rewrite dict_get_set. by rewrite decide_False.
Qed.

Lemma dict_touch_present {V} (v x : V) (k : string) (m : list (string * V)) :
  dict_get k m = Some x -> dict_touch v k m = m.
Proof. intros Hk. unfold dict_touch. by rewrite Hk. Qed.

Lemma dict_has_false_get {V} (k : string) (m : list (string * V)) :
  dict_has k m = false -> dict_get k m = None.
Proof.
  intros Hh. destruct (dict_get k m) as [x|] eqn:E; [|done].
  assert (dict_has k m = true) as Ht by (apply dict_has_get; eauto).
  congruence.
Qed.

Lemma first_recent_all cutoff ts :
  Forall (fun t => (t < cutoff)%Q) ts -> first_recent cutoff ts = length ts.
Proof.
  induction 1 as [|t ts Ht _ IH]; simpl; [done|].
  apply Qltb_lt in Ht. by rewrite Ht, IH.
Qed.

(** Pruning one address leaves the entries of the others alone. *)
Lemma clean_ip_other cutoff d k ip :
  k ≠ ip ->
  dict_get ip (traffic_data (clean_ip cutoff d k))
  = dict_get ip (traffic_data d)
  ∧ dict_get ip (ip_timestamps (clean_ip cutoff d k))
    = dict_get ip (ip_timestamps d)
  ∧ dict_get ip (ip_features (clean_ip cutoff d k))
    = dict_get ip (ip_features d).
Proof.
  intros Hne. unfold clean_ip. unfold_setters.
  destruct (default [] (dict_get k (dict_touch [] k (ip_timestamps d))))
    as [|q l].
  { unfold_setters. by rewrite dict_get_touch_ne. }
  destruct (0 <? _)%nat.
  2: { unfold_setters. by rewrite dict_get_touch_ne. }
  destruct (drop _ _).
  2: { unfold_setters. rewrite dict_get_set, decide_False by done.
       by rewrite dict_get_touch_ne. }
  destruct (dict_has k (traffic_data d)); unfold_setters;
    destruct (dict_has k (ip_features d)); unfold_setters;
    rewrite ?dict_get_del, ?dict_get_set, ?decide_False by done;
    by rewrite dict_get_touch_ne.
Qed.

Lemma clean_fold_other cutoff ips d ip :
  ip ∉ ips ->
  dict_get ip (traffic_data (fold_left (clean_ip cutoff) ips d))
  = dict_get ip (traffic_data d)
  ∧ dict_get ip (ip_timestamps (fold_left (clean_ip cutoff) ips d))
    = dict_get ip (ip_timestamps d)
  ∧ dict_get ip (ip_features (fold_left (clean_ip cutoff) ips d))
    = dict_get ip (ip_features d).
Proof.
  revert d. induction ips as [|k ips IH]; intros d Hnin; simpl; [done|].
  apply not_elem_of_cons in Hnin as [Hne Hnin].
  destruct (IH (clean_ip cutoff d k) Hnin) as (->&->&->).
  by apply clean_ip_other.
Qed.

(** An address whose timestamps have all expired leaves the three dicts. *)
Lemma clean_ip_expired cutoff d ip ts :
  dict_get ip (ip_timestamps d) = Some ts -> ts ≠ [] ->
  Forall (fun t => (t < cutoff)%Q) ts ->
  dict_get ip (traffic_data (clean_ip cutoff d ip)) = None
  ∧ dict_get ip (ip_timestamps (clean_ip cutoff d ip)) = None
  ∧ dict_get ip (ip_features (clean_ip cutoff d ip)) = None.
Proof.
  intros Hts Hne Hall. unfold clean_ip. unfold_setters.
  rewrite (dict_touch_present _ ts) by done. rewrite Hts. simpl.
  destruct ts as [|t ts]; [done|].
  rewrite (first_recent_all cutoff (t :: ts) Hall).
  assert ((0 <? length (t :: ts))%nat = true) as -> by done.
  rewrite drop_all.
  destruct (dict_has ip (traffic_data d)) eqn:E1; unfold_setters;
    destruct (dict_has ip (ip_features d)) eqn:E2; unfold_setters;
    rewrite ?dict_get_del, ?decide_True by done;
    split_and!; try done; by apply dict_has_false_get.
Qed.

(** The second half of C1: a source whose timestamps have all expired is
    removed by [_clean_old_data] from the store, from the timestamps and
    from the feature cache. *)
Lemma prune_removes_expired_source now d ip ts :
  NoDup (dict_keys (ip_timestamps d)) ->
  dict_get ip (ip_timestamps d) = Some ts -> ts ≠ [] ->
  Forall (fun t => (t < now - window_size (config d))%Q) ts ->
  dict_get ip (traffic_data (_clean_old_data now d)) = None
  ∧ dict_get ip (ip_timestamps (_clean_old_data now d)) = None
  ∧ dict_get ip (ip_features (_clean_old_data now d)) = None.
Proof.
  intros Hnd Hts Hne Hall. unfold _clean_old_data.
  set (cutoff := (now - window_size (config d))%Q) in *.
  pose proof (dict_get_Some_key _ _ _ Hts) as Hin.
  apply list_elem_of_split in Hin as (l1 & l2 & Hl).
  rewrite Hl in Hnd |- *. apply NoDup_app in Hnd as (_ & Hdisj & Hnd2).
  apply NoDup_cons in Hnd2 as [Hn2 _].
  assert (ip ∉ l1) as Hn1.
  { intros Hin1. apply (Hdisj ip Hin1). apply list_elem_of_here. }
  rewrite fold_left_app. simpl.
  destruct (clean_fold_other cutoff l1 d ip Hn1) as (_ & Hts1 & _).
  rewrite <- Hts1 in Hts.
  destruct (clean_ip_expired cutoff _ ip ts Hts Hne Hall) as (H1 & H2 & H3).
  destruct (clean_fold_other cutoff l2
              (clean_ip cutoff (fold_left (clean_ip cutoff) l1 d) ip)
              ip Hn2) as (->&->&->).
  done.
Qed.

(** C1, where the code departs from it. One source sends five requests
    at clock 0 and one at clock 1000, the window being 300 s. After a prune
    at clock 1000 its timestamp list holds the last request only, yet its
    deque still holds the five expired records, and the features extracted
    next are computed over all six: the request rate is 6 requests over a
    span of 1000 s. *)
Theorem prune_keeps_expired_records :
  let d := _clean_old_data 1000 (run (init cfg_default ∅ ∅) stale_trace) in
  dict_get "a"%string (ip_timestamps d) = Some [1000%Q]
  ∧ timestamp <$> window "a" d = [0; 0; 0; 0; 0; 1000]%Q
  ∧ Forall (fun t => (t < 1000 - window_size (config d))%Q)
      (take 5 (timestamp <$> window "a" d))
  ∧ (head <$> dict_get "a"%string
                (ip_features (_extract_features_for_ip "a" d)))
    = Some (Some (6 / 1000)%Q).
Proof.
  cbv zeta. split; [|split; [|split]].
  - vm_compute. reflexivity.
  - vm_compute. reflexivity.
  - vm_compute. repeat constructor.
  - vm_compute. reflexivity.
Qed.

End proofs.

(** * More of the code *)

(** ** The prune, source by source *)

Lemma dict_get_touch_eq {V} (v : V) (k : string) (m : list (string * V)) :
  dict_get k (dict_touch v k m) = Some (default v (dict_get k m)).
Proof.
  unfold dict_touch. destruct (dict_get k m) as [x|] eqn:E; simpl; [done|].
  rewrite dict_get_set. by rewrite decide_True.
Qed.

Lemma dict_has_true_get {V} (k : string) (m : list (string * V)) :
  dict_has k m = true -> exists x, dict_get k m = Some x.
Proof. intros Hh. by apply dict_has_get in Hh as [x Hx]; eauto. Qed.

Lemma first_recent_le cutoff ts : first_recent cutoff ts <= length ts.
Proof.
  induction ts as [|t ts IH]; simpl; [done|]. destruct (Qltb t cutoff); lia.
Qed.

(** The first timestamp kept, if any, is not below the cutoff. *)
Lemma kept_head cutoff ts t rest :
  kept cutoff ts = t :: rest -> (cutoff <= t)%Q.
Proof.
  unfold kept. induction ts as [|t0 ts IH]; simpl; [done|].
  destruct (Qltb t0 cutoff) eqn:E; simpl.
  - apply IH.
  - intros [= -> _]. by apply Qltb_ge.
Qed.

(** A timestamp not below the cutoff, and all that follow it, are kept. *)
Lemma kept_app_recent cutoff ts t :
  (cutoff <= t)%Q -> exists old, kept cutoff (ts ++ [t]) = old ++ [t].
Proof.
  intros Ht. unfold kept. induction ts as [|t0 ts IH]; simpl.
  - apply Qltb_ge in Ht. rewrite Ht. by exists [].
  - destruct (Qltb t0 cutoff); simpl; [done|]. by exists (t0 :: ts).
Qed.

Lemma kept_nil_expired cutoff ts :
  kept cutoff ts = [] -> Forall (fun t => (t < cutoff)%Q) ts.
Proof.
  unfold kept. induction ts as [|t0 ts IH]; simpl; [done|].
  destruct (Qltb t0 cutoff) eqn:E; simpl; [|done].
  intros Hk. constructor; [by apply Qltb_lt | by apply IH].
Qed.

(** What [clean_ip] does to the entries of the address it visits. *)
Lemma clean_ip_at cutoff d ip :
  match default [] (dict_get ip (ip_timestamps d)) with
  | t :: ts =>
      match kept cutoff (t :: ts) with
      | [] =>
          dict_get ip (traffic_data (clean_ip cutoff d ip)) = None
          ∧ dict_get ip (ip_timestamps (clean_ip cutoff d ip)) = None
          ∧ dict_get ip (ip_features (clean_ip cutoff d ip)) = None
      | rest =>
          dict_get ip (traffic_data (clean_ip cutoff d ip))
          = dict_get ip (traffic_data d)
          ∧ dict_get ip (ip_timestamps (clean_ip cutoff d ip)) = Some rest
          ∧ dict_get ip (ip_features (clean_ip cutoff d ip))
            = dict_get ip (ip_features d)
      end
  | [] =>
      dict_get ip (traffic_data (clean_ip cutoff d ip))
      = dict_get ip (traffic_data d)
      ∧ dict_get ip (ip_timestamps (clean_ip cutoff d ip)) = Some []
      ∧ dict_get ip (ip_features (clean_ip cutoff d ip))
        = dict_get ip (ip_features d)
  end.
Proof.
  unfold clean_ip, kept. unfold_setters. rewrite dict_get_touch_eq.
  cbn [from_option id].
  destruct (default [] (dict_get ip (ip_timestamps d))) as [|t ts] eqn:Ets.
  { unfold_setters. by rewrite dict_get_touch_eq, Ets. }
  remember (first_recent cutoff (t :: ts)) as n eqn:En. destruct n as [|n].
  { cbn [Nat.ltb Nat.leb drop]. unfold_setters.
    by rewrite dict_get_touch_eq, Ets. }
  assert ((0 <? S n)%nat = true) as -> by done.
  destruct (drop (S n) (t :: ts)) as [|t' rest] eqn:Ed.
  - destruct (dict_has ip (traffic_data d)) eqn:E1; unfold_setters;
      destruct (dict_has ip (ip_features d)) eqn:E2; unfold_setters;
      rewrite ?dict_get_del, ?decide_True by done;
      split_and!; try done; by apply dict_has_false_get.
  - unfold_setters. rewrite dict_get_set. by rewrite decide_True.
Qed.

(** [_clean_old_data], read at one address: a source whose timestamps have
    all expired leaves the three dicts; another source keeps its deque and
    its cached vector, and its timestamps from the first one that is not
    below the cutoff; a source without timestamps is not touched. *)
Lemma prune_at now d ip :
  NoDup (dict_keys (ip_timestamps d)) ->
  let d' := _clean_old_data now d in
  match dict_get ip (ip_timestamps d) with
  | Some (t :: ts) =>
      match kept (now - window_size (config d)) (t :: ts) with
      | [] =>
          dict_get ip (traffic_data d') = None
          ∧ dict_get ip (ip_timestamps d') = None
          ∧ dict_get ip (ip_features d') = None
      | rest =>
          dict_get ip (traffic_data d') = dict_get ip (traffic_data d)
          ∧ dict_get ip (ip_timestamps d') = Some rest
          ∧ dict_get ip (ip_features d') = dict_get ip (ip_features d)
      end
  | _ =>
      dict_get ip (traffic_data d') = dict_get ip (traffic_data d)
      ∧ dict_get ip (ip_timestamps d') = dict_get ip (ip_timestamps d)
      ∧ dict_get ip (ip_features d') = dict_get ip (ip_features d)
  end.
Proof.
  intros Hnd. cbv zeta. unfold _clean_old_data.
  set (cutoff := (now - window_size (config d))%Q).
  destruct (dict_get ip (ip_timestamps d)) as [l|] eqn:Hts.
  2: { destruct (clean_fold_other cutoff (dict_keys (ip_timestamps d)) d ip)
         as (-> & -> & ->); [by apply dict_get_None | by rewrite Hts]. }
  pose proof (dict_get_Some_key _ _ _ Hts) as Hin.
  apply list_elem_of_split in Hin as (l1 & l2 & Hl).
  rewrite Hl in Hnd |- *. apply NoDup_app in Hnd as (_ & Hdisj & Hnd2).
  apply NoDup_cons in Hnd2 as [Hn2 _].
  assert (ip ∉ l1) as Hn1.
  { intros Hin1. apply (Hdisj ip Hin1). apply list_elem_of_here. }
  rewrite fold_left_app. simpl.
  destruct (clean_fold_other cutoff l1 d ip Hn1) as (Ha1 & Hb1 & Hc1).
  set (d1 := fold_left (clean_ip cutoff) l1 d) in *.
  destruct (clean_fold_other cutoff l2 (clean_ip cutoff d1 ip) ip Hn2)
    as (-> & -> & ->).
  pose proof (clean_ip_at cutoff d1 ip) as Hat.
  rewrite Hb1, Hts in Hat. simpl in Hat.
  destruct l as [|t ts].
  - destruct Hat as (-> & -> & ->). by rewrite Ha1, Hc1.
  - destruct (kept cutoff (t :: ts)); [done|].
    destruct Hat as (-> & -> & ->). by rewrite Ha1, Hc1.
Qed.

(** ** The store invariants *)

Lemma deque_append_length {A} n (dq : list A) x :
  length (deque_append n dq x) = Nat.min n (S (length dq)).
Proof.
  unfold deque_append. rewrite length_drop, length_app. simpl. lia.
Qed.

Lemma deque_append_last {A} n (dq : list A) x :
  0 < n -> last (deque_append n dq x) = Some x.
Proof.
  intros Hn. unfold deque_append.
  assert (length (dq ++ [x]) - n <= length dq) as Hle.
  { rewrite length_app. simpl. lia. }
  rewrite drop_app_le by done. by rewrite last_snoc.
Qed.

Lemma window_appended ip r d k :
  window k (appended ip r d)
  = if decide (k = ip)
    then deque_append (features_window (config d)) (window ip d) r
    else window k d.
Proof.
  unfold window, appended. unfold_setters.
  rewrite dict_get_set. case_decide as Hk; [subst|].
  - simpl. by rewrite dict_get_touch_eq.
  - by rewrite dict_get_touch_ne.
Qed.

Lemma timestamps_appended ip r d k :
  dict_get k (ip_timestamps (appended ip r d))
  = if decide (k = ip)
    then Some (default [] (dict_get ip (ip_timestamps d)) ++ [timestamp r])
    else dict_get k (ip_timestamps d).
Proof.
  unfold appended. unfold_setters.
  rewrite dict_get_set. case_decide as Hk; [subst|].
  - by rewrite dict_get_touch_eq.
  - by rewrite dict_get_touch_ne.
Qed.

Lemma appended_wf ip r d : dicts_wf d -> dicts_wf (appended ip r d).
Proof.
  intros (?&?&?). unfold dicts_wf, appended. unfold_setters.
  auto using dict_touch_NoDup, dict_set_NoDup.
Qed.

Lemma appended_inv ip r d : store_inv d -> store_inv (appended ip r d).
Proof.
  intros (Hwf & Hb & Hne & Hc). split_and!.
  - by apply appended_wf.
  - intros k. rewrite window_appended. case_decide; [|apply Hb].
    rewrite deque_append_length.
    change (config (appended ip r d)) with (config d). lia.
  - intros k. rewrite timestamps_appended. case_decide; [|apply Hne].
    intros [= Heq]. by apply app_nil in Heq as [_ ?].
  - intros k. rewrite timestamps_appended, window_appended.
    case_decide; [done|]. apply Hc.
Qed.

Lemma _clean_old_data_inv now d : store_inv d -> store_inv (_clean_old_data now d).
Proof.
  intros (Hwf & Hb & Hne & Hc).
  pose proof Hwf as (_ & Hnd & _).
  destruct (_clean_old_data_registry now d) as (Hcfg & _).
  split_and!.
  - by apply _clean_old_data_wf.
  - intros k. pose proof (prune_at now d k Hnd) as Hat. cbv zeta in Hat.
    specialize (Hb k). unfold window in *. rewrite Hcfg.
    destruct (dict_get k (ip_timestamps d)) as [[|t ts]|];
      [by destruct Hat as (-> & _) | | by destruct Hat as (-> & _)].
    destruct (kept _ (t :: ts)); destruct Hat as (-> & _); simpl; [lia|done].
  - intros k. pose proof (prune_at now d k Hnd) as Hat. cbv zeta in Hat.
    specialize (Hne k).
    destruct (dict_get k (ip_timestamps d)) as [[|t ts]|];
      [done | | by destruct Hat as (_ & -> & _)].
    destruct (kept _ (t :: ts)); destruct Hat as (_ & -> & _); done.
  - intros k Hnone. pose proof (prune_at now d k Hnd) as Hat.
    cbv zeta in Hat. specialize (Hc k). unfold window in *.
    destruct (dict_get k (ip_timestamps d)) as [[|t ts]|] eqn:Ek.
    + destruct Hat as (_ & Hts & _). congruence.
    + destruct (kept _ (t :: ts)).
      * by destruct Hat as (-> & _ & ->).
      * destruct Hat as (_ & Hts & _). congruence.
    + destruct Hat as (-> & _ & ->). by apply Hc.
Qed.

Lemma window_touch ip k d :
  window k (set_traffic_data (dict_touch [] ip) d) = window k d.
Proof.
  unfold window. unfold_setters. destruct (decide (ip = k)) as [->|Hk].
  - by rewrite dict_get_touch_eq.
  - by rewrite dict_get_touch_ne.
Qed.

Lemma touch_inv ip d :
  store_inv d -> store_inv (set_traffic_data (dict_touch [] ip) d).
Proof.
  intros ((?&?&?) & Hb & Hne & Hc). split_and!.
  - unfold dicts_wf. unfold_setters. auto using dict_touch_NoDup.
  - intros k. rewrite window_touch. apply Hb.
  - done.
  - intros k Hk. rewrite window_touch. by apply Hc.
Qed.

Section store_proofs.
Context `{Numerics}.
Implicit Types (d : Detector) (ip k : string) (r : TrafficRecord).

Lemma store_request_appended now ip r d :
  store_request now ip r d
  = set_traffic_data (dict_touch [] ip) (_clean_old_data now (appended ip r d)).
Proof. reflexivity. Qed.

Lemma store_request_inv now ip r d :
  store_inv d -> store_inv (store_request now ip r d).
Proof.
  intros Hd. rewrite store_request_appended.
  by apply touch_inv, _clean_old_data_inv, appended_inv.
Qed.

Lemma window_extract ip k d :
  window k (_extract_features_for_ip ip d) = window k d.
Proof.
  unfold _extract_features_for_ip.
  destruct (_ <? 2)%nat; [apply window_touch|].
  unfold window at 1. unfold_setters. apply window_touch.
Qed.

Lemma features_extract ip k d :
  dict_get k (ip_features (_extract_features_for_ip ip d))
  = if decide (k = ip) then
      if (length (window ip d) <? 2)%nat then dict_get ip (ip_features d)
      else Some (compute_features (window ip d))
    else dict_get k (ip_features d).
Proof.
  unfold _extract_features_for_ip. rewrite window_touch.
  destruct (_ <? 2)%nat; unfold_setters.
  - by case_decide; subst.
  - rewrite dict_get_set. by case_decide.
Qed.

Lemma _extract_features_for_ip_inv ip d :
  store_inv d -> store_inv (_extract_features_for_ip ip d).
Proof.
  intros Hd. pose proof Hd as (Hwf & Hb & Hne & Hc).
  destruct (_extract_features_for_ip_registry ip d) as (Hcfg & _).
  assert (ip_timestamps (_extract_features_for_ip ip d) = ip_timestamps d)
    as Hts.
  { unfold _extract_features_for_ip. by destruct (_ <? 2)%nat. }
  split_and!.
  - by apply _extract_features_for_ip_wf.
  - intros k. rewrite window_extract, Hcfg. apply Hb.
  - intros k. rewrite Hts. apply Hne.
  - intros k. rewrite Hts, window_extract, features_extract. intros Hk.
    destruct (Hc k Hk) as [Hw Hf]. split; [done|].
    case_decide as Heq; [subst|done]. rewrite Hw. simpl. done.
Qed.

Lemma marks_only_inv ip d d' :
  marks_only ip d d' -> store_inv d -> store_inv d'.
Proof.
  intros Hm (Hwf & Hb & Hne & Hc).
  pose proof (marks_only_wf _ _ _ Hm Hwf) as Hwf'.
  destruct Hm as (Hcfg & Htd & Hts & Hfe & _).
  unfold store_inv, windows_bounded, timestamps_nonempty, store_consistent,
    window in *.
  rewrite Hcfg, Htd, Hts, Hfe. by split_and!.
Qed.

Lemma fold_left_inv {A} (f : Detector -> A -> Detector) l d :
  (forall d x, store_inv d -> store_inv (f d x)) ->
  store_inv d -> store_inv (fold_left f l d).
Proof.
  intros Hf. revert d. induction l as [|x l IH]; intros d Hd; simpl; auto.
Qed.

Lemma step_inv d ev : store_inv d -> store_inv (step d ev).
Proof.
  intros Hd. destruct ev as [now ip ts b m u s|ip mark|now]; simpl.
  - unfold record_request. case_decide; [done|].
    set (r := Build_TrafficRecord _ _ _ _ _).
    pose proof (store_request_inv now ip r d Hd) as H4.
    destruct (enough_samples _ _); [|done].
    apply (_extract_features_for_ip_inv ip) in H4.
    destruct (scorable _ _); [|done].
    eapply marks_only_inv; [apply _check_anomaly_realtime_marks | done].
  - unfold unblock_ip. case_decide; [|done]. by destruct mark.
  - unfold periodic_iteration. destruct (_ <? 5)%nat; [done|].
    destruct (fit_raises _); [done|].
    destruct (mapM _ _) as [scores|]; [|done].
    apply _clean_old_data_inv, fold_left_inv; [|done].
    intros d0 e. apply marks_only_inv with (ip := e.1), sweep_ip_marks.
Qed.

Lemma run_inv d evs : store_inv d -> store_inv (run d evs).
Proof.
  unfold run. revert d. induction evs as [|ev evs IH]; intros d Hd; simpl.
  - done.
  - by apply IH, step_inv.
Qed.

Lemma startup_inv cfg file : store_inv (startup cfg file).
Proof.
  assert (store_inv (init cfg ∅ ∅)) as Hi.
  { split_and!; [apply init_wf | intros k; simpl; lia | done | done]. }
  unfold startup, _load_state. by destruct file.
Qed.

Lemma init_inv cfg lb lf : store_inv (init cfg lb lf).
Proof.
  split_and!; [apply init_wf | intros k; simpl; lia | done | done].
Qed.

End store_proofs.

(** ** Refusals and marks *)

Section registry_proofs.
Context `{Numerics}.
Implicit Types (d : Detector) (ip k : string) (r : TrafficRecord).

Lemma decide_inline_refuses ip a d :
  ip ∉ blocked_ips d ->
  (decide_inline ip a d).1 = false <-> ip ∈ blocked_ips (decide_inline ip a d).2.
Proof.
  intros Hb. unfold decide_inline, _block_ip.
  destruct (Qltb (block_threshold (config d)) a); [|by simpl].
  destruct (Qltb _ a); simpl.
  - rewrite decide_False by done. simpl. split; [set_solver|done].
  - split; [done | by intros ?].
Qed.

Lemma _check_anomaly_realtime_refuses ip d :
  ip ∉ blocked_ips d ->
  (_check_anomaly_realtime ip d).1 = false
  <-> ip ∈ blocked_ips (_check_anomaly_realtime ip d).2.
Proof.
  intros Hb. unfold _check_anomaly_realtime, score_and_decide.
  case_decide; [by simpl|].
  destruct (_ <? 10)%nat; [by simpl|].
  destruct (fit_raises _); [by simpl|]. simpl.
  destruct (dict_get ip (ip_features d)) as [x|]; [|by simpl].
  destruct (score_samples _ x) as [a|]; [|by simpl].
  by apply decide_inline_refuses.
Qed.

Lemma record_request_refuses now ip ts b m u s d :
  (record_request now ip ts b m u s d).1 = false
  <-> ip ∈ blocked_ips (record_request now ip ts b m u s d).2.
Proof.
  unfold record_request. case_decide as Hb; [by simpl|].
  set (r := Build_TrafficRecord _ _ _ _ _).
  destruct (refreshed_registry now ip r d) as (_ & Hb5 & _).
  destruct (store_request_registry now ip r d) as (_ & Hb4 & _).
  destruct (enough_samples _ _); [|cbn [fst snd]; by rewrite Hb4].
  fold (refreshed now ip r d).
  destruct (scorable _ _); [|cbn [fst snd]; by rewrite Hb5].
  apply _check_anomaly_realtime_refuses. by rewrite Hb5.
Qed.

Lemma decide_inline_blocks_suspicious ip a d :
  blocked_ips (decide_inline ip a d).2
    ⊆ blocked_ips d ∪ suspicious_ips (decide_inline ip a d).2.
Proof.
  unfold decide_inline, _block_ip.
  destruct (Qltb _ a); [|set_solver].
  destruct (Qltb _ a); simpl; [|set_solver].
  case_decide; simpl; set_solver.
Qed.

Lemma _check_anomaly_realtime_blocks_suspicious ip d :
  blocked_ips (_check_anomaly_realtime ip d).2
    ⊆ blocked_ips d ∪ suspicious_ips (_check_anomaly_realtime ip d).2.
Proof.
  unfold _check_anomaly_realtime, score_and_decide.
  case_decide; [set_solver|].
  destruct (_ <? 10)%nat; [set_solver|].
  destruct (fit_raises _); [set_solver|]. simpl.
  destruct (dict_get ip _) as [x|]; [|set_solver].
  destruct (score_samples _ x) as [a|]; [|set_solver].
  apply (decide_inline_blocks_suspicious ip a (set_fit_calls _ d)).
Qed.

Lemma record_request_marks now ip ts b m u s d :
  let d' := (record_request now ip ts b m u s d).2 in
  config d' = config d ∧ false_positives d' = false_positives d
  ∧ blocked_ips d ⊆ blocked_ips d' ∧ blocked_ips d' ⊆ blocked_ips d ∪ {[ip]}
  ∧ suspicious_ips d ⊆ suspicious_ips d'
  ∧ suspicious_ips d' ⊆ suspicious_ips d ∪ {[ip]}
  ∧ blocked_ips d' ⊆ blocked_ips d ∪ suspicious_ips d'.
Proof.
  cbv zeta.
  assert (forall d', same_registry d d' ->
            config d' = config d ∧ false_positives d' = false_positives d
            ∧ blocked_ips d ⊆ blocked_ips d'
            ∧ blocked_ips d' ⊆ blocked_ips d ∪ {[ip]}
            ∧ suspicious_ips d ⊆ suspicious_ips d'
            ∧ suspicious_ips d' ⊆ suspicious_ips d ∪ {[ip]}
            ∧ blocked_ips d' ⊆ blocked_ips d ∪ suspicious_ips d') as Hsame.
  { intros d' (-> & -> & -> & -> & _). split_and!; try done; set_solver. }
  unfold record_request. case_decide as Hb; [by apply Hsame|].
  set (r := Build_TrafficRecord _ _ _ _ _).
  pose proof (refreshed_registry now ip r d) as H5.
  pose proof (store_request_registry now ip r d) as H4.
  destruct (enough_samples _ _); [|by apply Hsame].
  fold (refreshed now ip r d).
  destruct (scorable _ _); [|by apply Hsame].
  clear Hsame H4.
  pose proof (_check_anomaly_realtime_marks ip (refreshed now ip r d)) as Hm.
  pose proof (_check_anomaly_realtime_blocks_suspicious ip
                (refreshed now ip r d)) as Hbs.
  destruct Hm as (Hc & _ & _ & _ & Hf & Hb1 & Hb2 & Hs1 & Hs2 & _).
  destruct H5 as (Hc5 & Hb5 & Hs5 & Hf5 & _).
  rewrite Hc5, ?Hb5, ?Hs5, Hf5 in *. by split_and!.
Qed.

(** X1. A request is refused exactly when its source is blocked once the
    call returns: either it was blocked already, or this very call has
    blocked it; and a request that is allowed leaves the blocked set as it
    was. *)
Theorem refused_iff_blocked now ip ts b m u s d :
  ((record_request now ip ts b m u s d).1 = false
   <-> ip ∈ blocked_ips (record_request now ip ts b m u s d).2)
  ∧ ((record_request now ip ts b m u s d).1 = true ->
     blocked_ips (record_request now ip ts b m u s d).2 = blocked_ips d).
Proof.
  pose proof (record_request_refuses now ip ts b m u s d) as Hiff.
  split; [done|]. intros Hok.
  pose proof (record_request_marks now ip ts b m u s d) as Hm.
  cbv zeta in Hm. destruct Hm as (_ & _ & Hb1 & Hb2 & _).
  apply (anti_symm (⊆)); [|done].
  intros k Hk. pose proof (Hb2 k Hk) as Hk'.
  apply elem_of_union in Hk' as [?|Heq%elem_of_singleton]; [done|].
  subst. apply Hiff in Hk. congruence.
Qed.

(** X2. A request can mark no source but its own: after the call the
    blocked and the suspicious sets hold what they held, plus at most the
    address of the request; the false positives and the configuration are
    as they were. *)
Theorem request_marks_own_source_only now ip ts b m u s d :
  let d' := (record_request now ip ts b m u s d).2 in
  config d' = config d ∧ false_positives d' = false_positives d
  ∧ blocked_ips d ⊆ blocked_ips d' ∧ blocked_ips d' ⊆ blocked_ips d ∪ {[ip]}
  ∧ suspicious_ips d ⊆ suspicious_ips d'
  ∧ suspicious_ips d' ⊆ suspicious_ips d ∪ {[ip]}.
Proof.
  pose proof (record_request_marks now ip ts b m u s d) as Hm.
  cbv zeta in *. destruct Hm as (?&?&?&?&?&?&_). by split_and!.
Qed.

Lemma sweep_ip_within d e :
  let d' := sweep_ip d e in
  config d' = config d ∧ false_positives d' = false_positives d
  ∧ blocked_ips d' ⊆ blocked_ips d ∪ ({[e.1]} ∖ false_positives d)
  ∧ suspicious_ips d' ⊆ suspicious_ips d ∪ ({[e.1]} ∖ false_positives d)
  ∧ suspicious_ips d ⊆ suspicious_ips d'
  ∧ blocked_ips d' ⊆ blocked_ips d ∪ suspicious_ips d'.
Proof.
  cbv zeta. unfold sweep_ip, _block_ip.
  case_decide as Hd; [split_and!; try done; set_solver|].
  destruct (Qltb _ e.2); [|split_and!; try done; set_solver].
  destruct (Qltb _ e.2); unfold_setters.
  - case_decide; unfold_setters; split_and!; try done; set_solver.
  - split_and!; try done; set_solver.
Qed.

Lemma within_step (B B1 B' L F : gset string) (e : string) :
  B' ⊆ B1 ∪ (L ∖ F) -> B1 ⊆ B ∪ ({[e]} ∖ F) ->
  B' ⊆ B ∪ (({[e]} ∪ L) ∖ F).
Proof. set_solver. Qed.

Lemma blocks_suspicious_step (B B1 B' S1 S' : gset string) :
  B' ⊆ B1 ∪ S' -> B1 ⊆ B ∪ S1 -> S1 ⊆ S' -> B' ⊆ B ∪ S'.
Proof. set_solver. Qed.

Lemma sweep_fold_within entries d :
  let d' := fold_left sweep_ip entries d in
  config d' = config d ∧ false_positives d' = false_positives d
  ∧ blocked_ips d'
      ⊆ blocked_ips d ∪ (list_to_set entries.*1 ∖ false_positives d)
  ∧ suspicious_ips d'
      ⊆ suspicious_ips d ∪ (list_to_set entries.*1 ∖ false_positives d)
  ∧ suspicious_ips d ⊆ suspicious_ips d'
  ∧ blocked_ips d' ⊆ blocked_ips d ∪ suspicious_ips d'.
Proof.
  cbv zeta. revert d. induction entries as [|e es IH]; intros d; csimpl.
  { split_and!; try done; apply union_subseteq_l. }
  destruct (IH (sweep_ip d e)) as (Hc & Hf & Hb & Hs & Hs' & Hbs).
  destruct (sweep_ip_within d e) as (Hc0 & Hf0 & Hb0 & Hs0 & Hs0' & Hbs0).
  rewrite Hc, Hf, Hc0, Hf0. rewrite Hf0 in Hb, Hs.
  split_and!; try done.
  - by eapply within_step.
  - by eapply within_step.
  - by etrans.
  - by eapply blocks_suspicious_step.
Qed.

Lemma within_keys (B B' L K F : gset string) :
  B' ⊆ B ∪ (L ∖ F) -> L ⊆ K -> B' ⊆ B ∪ (K ∖ F).
Proof. set_solver. Qed.

Lemma periodic_iteration_within now d :
  let d' := periodic_iteration now d in
  blocked_ips d'
    ⊆ blocked_ips d
      ∪ (list_to_set (dict_keys (ip_features d)) ∖ false_positives d)
  ∧ suspicious_ips d'
      ⊆ suspicious_ips d
        ∪ (list_to_set (dict_keys (ip_features d)) ∖ false_positives d)
  ∧ blocked_ips d' ⊆ blocked_ips d ∪ suspicious_ips d'.
Proof.
  cbv zeta. unfold periodic_iteration.
  destruct (_ <? 5)%nat; [split_and!; apply union_subseteq_l|].
  destruct (fit_raises _); [split_and!; apply union_subseteq_l|].
  destruct (mapM _ _) as [scores|];
    [|simpl; split_and!; apply union_subseteq_l].
  set (entries := zip (dict_keys (ip_features d)) scores).
  set (d1 := set_fit_calls _ d).
  destruct (_clean_old_data_registry now (fold_left sweep_ip entries d1))
    as (_ & -> & -> & _).
  destruct (sweep_fold_within entries d1) as (_ & _ & Hb & Hs & _ & Hbs).
  assert ((list_to_set entries.*1 : gset string)
            ⊆ list_to_set (dict_keys (ip_features d))) as Hk.
  { intros k. rewrite !elem_of_list_to_set.
    intros [[k' a] [-> Hin]]%list_elem_of_fmap. simpl.
    by apply elem_of_zip_l in Hin. }
  subst d1. unfold_setters. split_and!; [| |done].
  - by eapply within_keys.
  - by eapply within_keys.
Qed.

(** X3. A sweep marks only sources that have a cached feature vector and
    are not false positives: whatever it adds to the blocked or to the
    suspicious set is a key of [ip_features] outside [false_positives]. *)
Theorem sweep_marks_cached_sources_only now d :
  blocked_ips (periodic_iteration now d)
    ⊆ blocked_ips d
      ∪ (list_to_set (dict_keys (ip_features d)) ∖ false_positives d)
  ∧ suspicious_ips (periodic_iteration now d)
      ⊆ suspicious_ips d
        ∪ (list_to_set (dict_keys (ip_features d)) ∖ false_positives d).
Proof.
  destruct (periodic_iteration_within now d) as (? & ? & _). by split.
Qed.

End registry_proofs.

(** ** Thresholds that nothing can exceed *)

Lemma Qltb_scaled_threshold th a lo c :
  (lo <= th)%Q -> (0 <= c)%Q -> (1 <= lo * c)%Q -> (a <= 1)%Q ->
  Qltb (th * c) a = false.
Proof.
  intros Hlo Hc Hone Ha. apply Qltb_ge.
  eapply Qle_trans; [exact Ha|]. eapply Qle_trans; [exact Hone|].
  by apply Qmult_le_compat_r.
Qed.

Section bounded_scores.
Context `{Numerics}.
Implicit Types (d : Detector) (ip k : string) (r : TrafficRecord).

Lemma step_config d ev : config (step d ev) = config d.
Proof.
  destruct ev as [now ip ts b m u s|ip mark|now]; simpl.
  - by destruct (record_request_grows now ip ts b m u s d) as (? & _).
  - by destruct (unblock_ip_registry ip mark d) as (? & _).
  - by destruct (periodic_iteration_grows now d) as (? & _).
Qed.

Lemma run_config d evs : config (run d evs) = config d.
Proof.
  unfold run. revert d. induction evs as [|ev evs IH]; intros d; simpl.
  - done.
  - by rewrite IH, step_config.
Qed.

Lemma decide_inline_high_threshold ip a d :
  (2 # 3 <= block_threshold (config d))%Q -> (a <= 1)%Q ->
  (decide_inline ip a d).1 = true
  ∧ blocked_ips (decide_inline ip a d).2 = blocked_ips d.
Proof.
  intros Hth Ha. unfold decide_inline.
  rewrite (Qltb_scaled_threshold _ a (2 # 3) (15 # 10)) by done.
  by destruct (Qltb _ a).
Qed.

Lemma _check_anomaly_realtime_high_threshold ip d :
  scores_at_most_one ->
  (2 # 3 <= block_threshold (config d))%Q ->
  (_check_anomaly_realtime ip d).1 = true
  ∧ blocked_ips (_check_anomaly_realtime ip d).2 = blocked_ips d.
Proof.
  intros Hsc Hth. unfold _check_anomaly_realtime, score_and_decide.
  case_decide; [done|].
  destruct (_ <? 10)%nat; [done|].
  destruct (fit_raises _); [done|]. simpl.
  destruct (dict_get ip (ip_features d)) as [x|]; [|done].
  destruct (score_samples _ x) as [a|] eqn:Ea; [|done].
  apply (decide_inline_high_threshold ip a (set_fit_calls _ d)); [done|].
  by eapply Hsc.
Qed.

Lemma record_request_high_threshold now ip ts b m u s d :
  scores_at_most_one ->
  (2 # 3 <= block_threshold (config d))%Q ->
  blocked_ips (record_request now ip ts b m u s d).2 = blocked_ips d.
Proof.
  intros Hsc Hth. unfold record_request. case_decide; [done|].
  set (r := Build_TrafficRecord _ _ _ _ _).
  destruct (refreshed_registry now ip r d) as (Hc5 & Hb5 & _).
  destruct (store_request_registry now ip r d) as (_ & Hb4 & _).
  destruct (enough_samples _ _); [|done].
  fold (refreshed now ip r d).
  destruct (scorable _ _); [|done].
  rewrite <- Hb5. apply _check_anomaly_realtime_high_threshold; [done|].
  by rewrite Hc5.
Qed.

(** X4. With anomaly scores that never exceed 1, as scikit-learn's are,
    and a threshold of 2/3 or more, 1.5 times the threshold is out of
    reach: the inline path never refuses a request of a source that is not
    blocked already, and never blocks. *)
Theorem inline_never_blocks_from_two_thirds now ip ts b m u s d :
  scores_at_most_one ->
  (2 # 3 <= block_threshold (config d))%Q ->
  ip ∉ blocked_ips d ->
  (record_request now ip ts b m u s d).1 = true
  ∧ blocked_ips (record_request now ip ts b m u s d).2 = blocked_ips d.
Proof.
  intros Hsc Hth Hb.
  split; [|by apply record_request_high_threshold].
  unfold record_request. rewrite decide_False by done.
  set (r := Build_TrafficRecord _ _ _ _ _).
  destruct (refreshed_registry now ip r d) as (Hc5 & _).
  destruct (enough_samples _ _); [|done].
  fold (refreshed now ip r d).
  destruct (scorable _ _); [|done].
  apply _check_anomaly_realtime_high_threshold; [done|].
  by rewrite Hc5.
Qed.

Lemma sweep_ip_high_threshold d e :
  (10 # 13 <= block_threshold (config d))%Q -> (e.2 <= 1)%Q ->
  config (sweep_ip d e) = config d
  ∧ blocked_ips (sweep_ip d e) = blocked_ips d.
Proof.
  intros Hth Ha. unfold sweep_ip. case_decide; [done|].
  rewrite (Qltb_scaled_threshold _ e.2 (10 # 13) (13 # 10)) by done.
  by destruct (Qltb _ e.2).
Qed.

Lemma sweep_fold_high_threshold entries d :
  (10 # 13 <= block_threshold (config d))%Q ->
  Forall (fun e : string * Q => (e.2 <= 1)%Q) entries ->
  blocked_ips (fold_left sweep_ip entries d) = blocked_ips d.
Proof.
  intros Hth Hall. revert d Hth.
  induction Hall as [|e es He _ IH]; intros d Hth; simpl; [done|].
  destruct (sweep_ip_high_threshold d e Hth He) as [Hc Hb].
  rewrite IH by by rewrite Hc. done.
Qed.

Lemma mapM_scores_bounded X rows scores :
  scores_at_most_one ->
  mapM (score_samples X) rows = Some scores ->
  Forall (fun a => (a <= 1)%Q) scores.
Proof.
  intros Hsc Hm. apply mapM_Some_1 in Hm.
  induction Hm as [|x a rows scores Hx _ IH]; constructor; [|done].
  by eapply Hsc.
Qed.

Lemma periodic_iteration_high_threshold now d :
  scores_at_most_one ->
  (10 # 13 <= block_threshold (config d))%Q ->
  blocked_ips (periodic_iteration now d) = blocked_ips d.
Proof.
  intros Hsc Hth. unfold periodic_iteration.
  destruct (_ <? 5)%nat; [done|].
  destruct (fit_raises _); [done|].
  destruct (mapM _ _) as [scores|] eqn:Em; [|done].
  destruct (_clean_old_data_registry now
              (fold_left sweep_ip (zip (dict_keys (ip_features d)) scores)
                 (set_fit_calls (cons (feature_matrix d)) d)))
    as (_ & -> & _).
  rewrite sweep_fold_high_threshold; [done | done |].
  apply Forall_forall. intros [k a] Hin. simpl.
  apply elem_of_zip_r in Hin.
  pose proof (mapM_scores_bounded _ _ _ Hsc Em) as Hall.
  by eapply (proj1 (Forall_forall _ _) Hall).
Qed.

(** X5. With anomaly scores that never exceed 1 and a threshold of 10/13
    or more (the default 0.8 is one), neither path can block: along any
    sequence of requests, unblock calls and sweeps no address is added to
    the blocked set. *)
Theorem nothing_blocked_from_ten_thirteenths d evs :
  scores_at_most_one ->
  (10 # 13 <= block_threshold (config d))%Q ->
  blocked_ips (run d evs) ⊆ blocked_ips d.
Proof.
  intros Hsc Hth. unfold run. revert d Hth.
  induction evs as [|ev evs IH]; intros d Hth; simpl; [done|].
  etrans; [apply IH; by rewrite step_config|].
  destruct ev as [now ip ts b m u s|ip mark|now]; simpl.
  - rewrite record_request_high_threshold; [done | done |].
    eapply Qle_trans; [|exact Hth]. done.
  - by destruct (unblock_ip_registry ip mark d) as (_ & _ & ? & _).
  - by rewrite periodic_iteration_high_threshold.
Qed.

End bounded_scores.

(** ** Blocking, unblocking and the false positives *)

Section unblock_proofs.
Context `{Numerics}.
Implicit Types (d : Detector) (ip k : string) (r : TrafficRecord).

Lemma run_protected d evs k :
  k ∈ false_positives d -> k ∉ blocked_ips d ->
  k ∈ false_positives (run d evs) ∧ (k ∉ blocked_ips (run d evs)).
Proof.
  unfold run. revert d. induction evs as [|ev evs IH]; intros d Hf Hb; simpl.
  - done.
  - destruct (step_protected d ev k Hf Hb) as (Hf1 & Hb1 & _). by apply IH.
Qed.

(** X6. Unblocking with the false-positive mark is final: once a blocked
    address has been unblocked with [mark_as_false_positive=True], every
    later request from it is allowed and it is never blocked again,
    whatever traffic, unblock calls and sweeps come in between. *)
Theorem unblock_as_false_positive_is_final ip d evs now ts b m u s :
  ip ∈ blocked_ips d ->
  let d' := run (unblock_ip ip true d).2 evs in
  (ip ∉ blocked_ips d')
  ∧ (record_request now ip ts b m u s d').1 = true.
Proof.
  intros Hb. cbv zeta.
  assert (ip ∈ false_positives (unblock_ip ip true d).2
          ∧ (ip ∉ blocked_ips (unblock_ip ip true d).2)) as [Hf1 Hb1].
  { unfold unblock_ip. rewrite decide_True by done. simpl. set_solver. }
  destruct (run_protected _ evs ip Hf1 Hb1) as [Hf2 Hb2].
  split; [done|].
  by destruct (record_request_false_positive now ip ts b m u s _ Hf2 Hb2).
Qed.

Lemma unblock_after_marks (B B' : gset string) (ip : string) :
  ip ∉ B -> B ⊆ B' -> B' ⊆ B ∪ {[ip]} -> B' ∖ {[ip]} = B.
Proof. set_solver. Qed.

(** X7. Unblocking undoes what the request did to the blocked set: for a
    source that was not blocked, a request followed by [unblock_ip] of the
    same address leaves the blocked set exactly as it was before the
    request, and [unblock_ip] returns [True] exactly when the request had
    been refused. *)
Theorem unblock_undoes_request now ip ts b m u s mark d :
  ip ∉ blocked_ips d ->
  let res := record_request now ip ts b m u s d in
  blocked_ips (unblock_ip ip mark res.2).2 = blocked_ips d
  ∧ ((unblock_ip ip mark res.2).1 = true <-> res.1 = false).
Proof.
  intros Hb. cbv zeta.
  pose proof (record_request_marks now ip ts b m u s d) as Hm.
  cbv zeta in Hm. destruct Hm as (_ & _ & Hb1 & Hb2 & _).
  pose proof (record_request_refuses now ip ts b m u s d) as Hiff.
  unfold unblock_ip. case_decide as Hin.
  - split.
    + destruct mark; simpl; by apply unblock_after_marks.
    + simpl. split; [intros _; by apply Hiff | done].
  - split.
    + simpl. apply (anti_symm (⊆)); [|done].
      intros k Hk. specialize (Hb2 k Hk).
      apply elem_of_union in Hb2 as [?|Heq%elem_of_singleton]; [done|].
      by subst.
    + simpl. split; [done|]. intros Hf. by apply Hiff in Hf.
Qed.

Lemma unblock_ip_disjoint ip mark d :
  blocked_ips (unblock_ip ip mark d).2 ∩ false_positives (unblock_ip ip mark d).2
    ⊆ blocked_ips d ∩ false_positives d.
Proof.
  unfold unblock_ip. case_decide; [|done]. destruct mark; simpl; set_solver.
Qed.

Lemma grows_disjoint d d' :
  registry_grows d d' ->
  blocked_ips d' ∩ false_positives d' ⊆ blocked_ips d ∩ false_positives d.
Proof.
  intros (_ & Hf & _ & _ & Hk) k [Hb Hfp]%elem_of_intersection.
  rewrite Hf in Hfp. destruct (Hk k Hfp) as [Hkb _].
  apply elem_of_intersection. auto.
Qed.

(** X8. No address becomes both blocked and a false positive: along any
    sequence of requests, unblock calls and sweeps, an address that is in
    both sets was in both from the start (from the state file); a detector
    started with the two sets disjoint keeps them disjoint. *)
Theorem blocked_and_false_positive_stay_apart d evs :
  blocked_ips (run d evs) ∩ false_positives (run d evs)
    ⊆ blocked_ips d ∩ false_positives d.
Proof.
  unfold run. revert d. induction evs as [|ev evs IH]; intros d; simpl.
  - done.
  - etrans; [apply IH|].
    destruct ev as [now ip ts b m u s|ip mark|now]; simpl.
    + apply grows_disjoint, record_request_grows.
    + apply unblock_ip_disjoint.
    + apply grows_disjoint, periodic_iteration_grows.
Qed.

Lemma blocked_within_step (B0 B B' S S' : gset string) :
  B ⊆ B0 ∪ S -> S ⊆ S' -> B' ⊆ B ∪ S' -> B' ⊆ B0 ∪ S'.
Proof. set_solver. Qed.

Lemma step_blocked_within d ev :
  suspicious_ips d ⊆ suspicious_ips (step d ev)
  ∧ blocked_ips (step d ev) ⊆ blocked_ips d ∪ suspicious_ips (step d ev).
Proof.
  destruct ev as [now ip ts b m u s|ip mark|now]; simpl.
  - pose proof (record_request_marks now ip ts b m u s d) as Hm.
    cbv zeta in Hm. by destruct Hm as (_ & _ & _ & _ & ? & _ & ?).
  - destruct (unblock_ip_registry ip mark d) as (_ & -> & Hb & _).
    split; [done|]. etrans; [exact Hb|]. apply union_subseteq_l.
  - destruct (periodic_iteration_grows now d) as (_ & _ & _ & ? & _).
    by destruct (periodic_iteration_within now d) as (_ & _ & ?).
Qed.

(** X9. Whatever the detector blocks it also reports as suspicious: along
    any sequence of requests, unblock calls and sweeps, every blocked
    address was blocked at the start (loaded from the state file) or is in
    the suspicious set. *)
Theorem blocked_sources_are_suspicious d evs :
  blocked_ips (run d evs) ⊆ blocked_ips d ∪ suspicious_ips (run d evs).
Proof.
  unfold run. revert d. induction evs as [|ev evs IH]; intros d; simpl.
  - apply union_subseteq_l.
  - destruct (step_blocked_within d ev) as [Hs Hb].
    assert (suspicious_ips (step d ev)
              ⊆ suspicious_ips (fold_left step evs (step d ev))) as Hs'.
    { clear. generalize (step d ev) as d0. induction evs as [|e es IHe];
        intros d0; simpl; [done|].
      etrans; [|apply IHe]. by destruct (step_blocked_within d0 e). }
    eapply blocked_within_step; [exact Hb | exact Hs' | apply IH].
Qed.

End unblock_proofs.

(** ** The store along a run *)

Lemma kept_all_expired cutoff ts :
  Forall (fun t => (t < cutoff)%Q) ts -> kept cutoff ts = [].
Proof.
  intros Hall. unfold kept. rewrite first_recent_all by done. apply drop_all.
Qed.

Lemma clean_ip_features_nil cutoff d ip :
  ip_features d = [] -> ip_features (clean_ip cutoff d ip) = [].
Proof.
  intros Hf. unfold clean_ip. unfold_setters.
  destruct (default [] _) as [|t ts]; [done|].
  destruct (0 <? _)%nat; [|done].
  destruct (drop _ _); [|done].
  destruct (dict_has ip (traffic_data d)); unfold_setters;
    destruct (dict_has ip (ip_features d)); unfold_setters;
    by rewrite ?Hf.
Qed.

Lemma _clean_old_data_features_nil now d :
  ip_features d = [] -> ip_features (_clean_old_data now d) = [].
Proof.
  unfold _clean_old_data.
  generalize (now - window_size (config d))%Q as cutoff.
  generalize (dict_keys (ip_timestamps d)) as ips.
  intros ips cutoff. revert d.
  induction ips as [|k ips IH]; intros d Hf; simpl; [done|].
  by apply IH, clean_ip_features_nil.
Qed.

Lemma dict_has_nil {V} (k : string) : dict_has k ([] : list (string * V)) = false.
Proof.
  destruct (dict_has k []) eqn:E; [|done].
  by apply dict_has_true_get in E as [x Hx].
Qed.

Section store_run_proofs.
Context `{Numerics}.
Implicit Types (d : Detector) (ip k : string) (r : TrafficRecord).

Lemma run_init_inv cfg lb lf evs :
  store_inv (run (init cfg lb lf) evs)
  ∧ config (run (init cfg lb lf) evs) = cfg.
Proof.
  split; [apply run_inv, init_inv | by rewrite run_config].
Qed.

(** X10. No deque ever exceeds [features_window]: in every state the
    detector reaches, every source's window holds at most
    [features_window] records. *)
Theorem window_within_capacity cfg lb lf evs ip :
  length (window ip (run (init cfg lb lf) evs)) <= features_window cfg.
Proof.
  destruct (run_init_inv cfg lb lf evs) as ((_ & Hb & _) & Hc).
  specialize (Hb ip). by rewrite Hc in Hb.
Qed.

(** X11. A cached feature vector belongs to a source that still has
    timestamps: in every state the detector reaches, each key of
    [ip_features] is a key of [ip_timestamps], so [monitoring_ips] never
    exceeds the number of sources with timestamps. *)
Theorem monitored_sources_have_timestamps cfg lb lf evs :
  let d := run (init cfg lb lf) evs in
  (forall ip, is_Some (dict_get ip (ip_features d)) ->
     is_Some (dict_get ip (ip_timestamps d)))
  ∧ st_monitoring_ips (get_status d) <= length (ip_timestamps d).
Proof.
  cbv zeta.
  destruct (run_init_inv cfg lb lf evs) as (((_ & _ & Hnd) & _ & _ & Hc) & _).
  set (d := run (init cfg lb lf) evs) in *.
  assert (forall ip, is_Some (dict_get ip (ip_features d)) ->
            is_Some (dict_get ip (ip_timestamps d))) as Hsub.
  { intros ip [x Hx].
    destruct (dict_get ip (ip_timestamps d)) eqn:E; [eauto|].
    destruct (Hc ip E) as [_ Hn]. congruence. }
  split; [done|]. simpl.
  rewrite <- (dict_keys_length (ip_features d)).
  rewrite <- (dict_keys_length (ip_timestamps d)).
  apply submseteq_length, NoDup_submseteq; [done|].
  intros k Hk.
  destruct (dict_get k (ip_features d)) as [x|] eqn:Ex.
  - destruct (Hsub k) as [l Hl]; [eauto|]. by eapply dict_get_Some_key.
  - by apply dict_get_None in Ex.
Qed.

(** X12. After a prune no source is left with an expired first timestamp,
    nor with an empty timestamp list: in a state the detector reaches, once
    [_clean_old_data] has run at clock [now], each remaining timestamp list
    starts with a timestamp that is not below [now - window_size]. *)
Theorem prune_leaves_recent_heads cfg lb lf evs now ip l :
  dict_get ip (ip_timestamps (_clean_old_data now (run (init cfg lb lf) evs)))
  = Some l ->
  exists t rest, l = t :: rest ∧ (now - window_size cfg <= t)%Q.
Proof.
  destruct (run_init_inv cfg lb lf evs) as (((_ & Hnd & _) & _ & Hne & _) & Hc).
  set (d := run (init cfg lb lf) evs) in *.
  pose proof (prune_at now d ip Hnd) as Hat. cbv zeta in Hat.
  specialize (Hne ip). rewrite Hc in Hat. intros Hl.
  destruct (dict_get ip (ip_timestamps d)) as [[|t ts]|] eqn:E.
  - done.
  - destruct (kept _ (t :: ts)) as [|t' rest] eqn:Ek.
    + destruct Hat as (_ & Hts & _). congruence.
    + destruct Hat as (_ & Hts & _). rewrite Hts in Hl.
      injection Hl as <-. exists t', rest. split; [done|].
      by eapply kept_head.
  - destruct Hat as (_ & Hts & _). congruence.
Qed.

(** X13. A source whose timestamps have all expired is forgotten by the
    prune: in a state the detector reaches, if every timestamp of a source
    is below [now - window_size], then [_clean_old_data] at clock [now]
    removes its deque, its timestamps and its cached feature vector. *)
Theorem prune_drops_expired_source cfg lb lf evs now ip ts :
  let d := run (init cfg lb lf) evs in
  dict_get ip (ip_timestamps d) = Some ts ->
  Forall (fun t => (t < now - window_size cfg)%Q) ts ->
  dict_get ip (traffic_data (_clean_old_data now d)) = None
  ∧ dict_get ip (ip_timestamps (_clean_old_data now d)) = None
  ∧ dict_get ip (ip_features (_clean_old_data now d)) = None
  ∧ window ip (_clean_old_data now d) = [].
Proof.
  cbv zeta. intros Hts Hall.
  destruct (run_init_inv cfg lb lf evs) as (((_ & Hnd & _) & _ & Hne & _) & Hc).
  set (d := run (init cfg lb lf) evs) in *.
  pose proof (prune_at now d ip Hnd) as Hat. cbv zeta in Hat.
  specialize (Hne ip). rewrite Hc, Hts in Hat.
  destruct ts as [|t ts]; [congruence|].
  rewrite (kept_all_expired _ _ Hall) in Hat.
  destruct Hat as (Ha & Hb & Hc'). unfold window. by rewrite Ha.
Qed.

Lemma record_request_store now ip ts b m u s d :
  ip ∉ blocked_ips d ->
  let r := {| timestamp := ts; bytes := b; method := m; url := u;
              status_code := s |} in
  (forall k, window k (record_request now ip ts b m u s d).2
             = window k (store_request now ip r d))
  ∧ ip_timestamps (record_request now ip ts b m u s d).2
    = ip_timestamps (store_request now ip r d).
Proof.
  intros Hb r. unfold record_request. rewrite decide_False by done.
  fold r. destruct (enough_samples _ _); [|done].
  assert (ip_timestamps (_extract_features_for_ip ip (store_request now ip r d))
          = ip_timestamps (store_request now ip r d)) as Hts.
  { unfold _extract_features_for_ip. by destruct (_ <? 2)%nat. }
  destruct (scorable _ _).
  - destruct (_check_anomaly_realtime_marks ip
                (_extract_features_for_ip ip (store_request now ip r d)))
      as (_ & Htd & Hts' & _).
    split; [|by rewrite Hts'].
    intros k. unfold window at 1. rewrite Htd. apply window_extract.
  - split; [|done]. intros k. apply window_extract.
Qed.

(** X14. A request that is accepted and falls inside the time window is
    recorded: in a state the detector reaches, for a source that is not
    blocked, with [features_window] positive and a timestamp not below
    [now - window_size], the record of the request is the newest entry of
    the source's deque after the call, and its timestamp the newest of the
    source's timestamps. *)
Theorem in_window_request_is_recorded cfg lb lf evs now ip ts b m u s :
  let d := run (init cfg lb lf) evs in
  ip ∉ blocked_ips d ->
  0 < features_window cfg ->
  (now - window_size cfg <= ts)%Q ->
  let d' := (record_request now ip ts b m u s d).2 in
  last (window ip d')
  = Some {| timestamp := ts; bytes := b; method := m; url := u;
            status_code := s |}
  ∧ exists old, dict_get ip (ip_timestamps d') = Some (old ++ [ts]).
Proof.
  cbv zeta. intros Hb Hfw Hts.
  destruct (run_init_inv cfg lb lf evs) as (Hinv & Hc).
  set (d := run (init cfg lb lf) evs) in *.
  set (r := Build_TrafficRecord ts b m u s).
  destruct (record_request_store now ip ts b m u s d Hb) as [Hw Ht].
  fold r in Hw, Ht. rewrite Hw, Ht.
  rewrite store_request_appended. rewrite window_touch.
  change (ip_timestamps (set_traffic_data _ ?x)) with (ip_timestamps x).
  pose proof (appended_inv ip r d Hinv) as ((_ & Hnd & _) & _).
  pose proof (prune_at now (appended ip r d) ip Hnd) as Hat. cbv zeta in Hat.
  change (config (appended ip r d)) with (config d) in Hat.
  rewrite Hc, timestamps_appended, decide_True in Hat by done.
  destruct (kept_app_recent (now - window_size cfg)
              (default [] (dict_get ip (ip_timestamps d))) ts Hts)
    as [old Hold].
  change (timestamp r) with ts in Hat.
  destruct (default [] (dict_get ip (ip_timestamps d)) ++ [ts])
    as [|t0 l0] eqn:El.
  { by apply app_nil in El as [_ ?]. }
  rewrite Hold in Hat.
  destruct (old ++ [ts]) as [|t1 l1] eqn:Eo.
  { by apply app_nil in Eo as [_ ?]. }
  destruct Hat as (Htd & Hts' & _). split.
  - unfold window at 1. rewrite Htd. fold (window ip (appended ip r d)).
    rewrite window_appended, decide_True by done.
    apply deque_append_last. by rewrite Hc.
  - exists old. by rewrite Hts', Eo.
Qed.

(** X15. A request that is already expired when it arrives, from a source
    without timestamps, is allowed and forgotten in the same call, but it
    leaves an empty deque behind: the source has no timestamp, no record
    and no cached vector, yet it is a key of [traffic_data], and no later
    prune removes that key. *)
Theorem expired_request_leaves_empty_deque cfg lb lf evs now ip ts b m u s :
  let d := run (init cfg lb lf) evs in
  ip ∉ blocked_ips d ->
  dict_get ip (ip_timestamps d) = None ->
  (ts < now - window_size cfg)%Q ->
  let res := record_request now ip ts b m u s d in
  res.1 = true
  ∧ dict_get ip (ip_timestamps res.2) = None
  ∧ dict_get ip (ip_features res.2) = None
  ∧ dict_get ip (traffic_data res.2) = Some []
  ∧ forall now', dict_get ip (traffic_data (_clean_old_data now' res.2))
                 = Some [].
Proof.
  cbv zeta. intros Hb Hnone Hts.
  destruct (run_init_inv cfg lb lf evs) as (Hinv & Hc).
  set (d := run (init cfg lb lf) evs) in *.
  set (r := Build_TrafficRecord ts b m u s).
  pose proof (appended_inv ip r d Hinv) as ((_ & Hnd & _) & _).
  pose proof (prune_at now (appended ip r d) ip Hnd) as Hat. cbv zeta in Hat.
  change (config (appended ip r d)) with (config d) in Hat.
  rewrite Hc, timestamps_appended, decide_True, Hnone in Hat by done.
  simpl in Hat. change (timestamp r) with ts in Hat.
  rewrite (kept_all_expired _ [ts]) in Hat by (by constructor).
  destruct Hat as (Htd & Hts3 & Hfe3).
  set (d3 := _clean_old_data now (appended ip r d)) in *.
  assert (store_request now ip r d = set_traffic_data (dict_touch [] ip) d3)
    as Hstore by done.
  assert (dict_get ip (traffic_data (store_request now ip r d)) = Some [])
    as Htd4.
  { rewrite Hstore. unfold_setters. by rewrite dict_get_touch_eq, Htd. }
  assert (window ip (store_request now ip r d) = []) as Hw4.
  { unfold window. by rewrite Htd4. }
  assert (dict_get ip (ip_features (store_request now ip r d)) = None) as Hfe4.
  { by rewrite Hstore. }
  assert (dict_get ip (ip_timestamps (store_request now ip r d)) = None)
    as Hts4.
  { by rewrite Hstore. }
  set (d5 := _extract_features_for_ip ip (store_request now ip r d)).
  assert (dict_get ip (ip_features d5) = None) as Hfe5.
  { subst d5. rewrite features_extract, decide_True by done.
    by rewrite Hw4. }
  assert (traffic_data d5 = traffic_data (store_request now ip r d)
          ∧ ip_timestamps d5 = ip_timestamps (store_request now ip r d))
    as [Htd5 Hts5].
  { subst d5. unfold _extract_features_for_ip. rewrite window_touch, Hw4.
    simpl. unfold_setters.
    by rewrite (dict_touch_present _ [] ip _ Htd4). }
  assert (scorable ip d5 = false) as Hsc.
  { unfold scorable. destruct (dict_has ip (ip_features d5)) eqn:E; [|done].
    apply dict_has_true_get in E as [x Hx]. congruence. }
  assert (let res := record_request now ip ts b m u s d in
          res.1 = true
          ∧ traffic_data res.2 = traffic_data (store_request now ip r d)
          ∧ ip_timestamps res.2 = ip_timestamps (store_request now ip r d)
          ∧ dict_get ip (ip_features res.2) = None) as Hres.
  { cbv zeta. unfold record_request. rewrite decide_False by done. fold r.
    destruct (enough_samples _ _); [|done].
    fold d5. by rewrite Hsc. }
  cbv zeta in Hres. destruct Hres as (Hok & Htdr & Htsr & Hfer).
  split_and!; [done | by rewrite Htsr | done | by rewrite Htdr |].
  intros now'.
  pose proof (step_inv d (Request now ip ts b m u s) Hinv)
    as ((_ & Hndr & _) & _).
  simpl in Hndr.
  pose proof (prune_at now' _ ip Hndr) as Hat'. cbv zeta in Hat'.
  rewrite Htsr, Hts4 in Hat'. destruct Hat' as (-> & _).
  by rewrite Htdr.
Qed.

Lemma store_request_features_nil now ip r d :
  ip_features d = [] -> ip_features (store_request now ip r d) = [].
Proof.
  intros Hf. rewrite store_request_appended.
  change (ip_features (set_traffic_data _ ?x)) with (ip_features x).
  by apply _clean_old_data_features_nil.
Qed.

(** X16. With [features_window] at most 1 the detector is inert: no deque
    ever holds the two records feature extraction needs, so along any run
    no feature vector is cached, the model is never fitted, no address is
    marked suspicious and none is blocked beyond those loaded at start. *)
Theorem inert_below_two_records cfg lb lf evs :
  features_window cfg <= 1 ->
  let d := run (init cfg lb lf) evs in
  ip_features d = [] ∧ fit_calls d = [] ∧ suspicious_ips d = ∅
  ∧ blocked_ips d ⊆ lb.
Proof.
  intros Hfw. cbv zeta.
  assert (forall d, store_inv d -> features_window (config d) <= 1 ->
            ip_features d = [] ->
            forall ev, ip_features (step d ev) = []
                       ∧ fit_calls (step d ev) = fit_calls d
                       ∧ suspicious_ips (step d ev) = suspicious_ips d
                       ∧ blocked_ips (step d ev) ⊆ blocked_ips d) as Hstep.
  { intros d Hinv Hc Hf ev.
    destruct ev as [now ip ts b m u s|ip mark|now]; simpl.
    - unfold record_request. case_decide; [done|].
      set (r := Build_TrafficRecord _ _ _ _ _).
      pose proof (store_request_features_nil now ip r d Hf) as Hf4.
      destruct (store_request_registry now ip r d)
        as (Hc4 & Hb4 & Hs4 & _ & Hfc4 & _).
      pose proof (store_request_inv now ip r d) as Hinv4.
      destruct (enough_samples _ _);
        [|cbn [fst snd]; rewrite Hf4, Hfc4, Hs4, Hb4; done].
      assert (ip_features (_extract_features_for_ip ip
                             (store_request now ip r d)) = []) as Hf5.
      { unfold _extract_features_for_ip. rewrite window_touch.
        destruct (Nat.ltb_spec (length (window ip (store_request now ip r d)))
                    2) as [_|Hge]; [exact Hf4|].
        destruct (Hinv4 Hinv) as (_ & Hb' & _).
        specialize (Hb' ip). rewrite Hc4 in Hb'. lia. }
      destruct (_extract_features_for_ip_registry ip
                  (store_request now ip r d))
        as (_ & Hb5 & Hs5 & _ & Hfc5 & _).
      unfold scorable. rewrite Hf5, dict_has_nil. cbn [andb fst snd].
      rewrite Hf5, Hfc5, Hfc4, Hs5, Hs4, Hb5, Hb4. done.
    - destruct (unblock_ip_registry ip mark d) as (_ & Hs & Hbl & _).
      split_and!; try done.
      + unfold unblock_ip. case_decide; [|done]. by destruct mark.
      + unfold unblock_ip. case_decide; [|done]. by destruct mark.
    - unfold periodic_iteration. by rewrite Hf. }
  assert (forall evs d, store_inv d -> features_window (config d) <= 1 ->
            ip_features d = [] ->
            ip_features (run d evs) = [] ∧ fit_calls (run d evs) = fit_calls d
            ∧ suspicious_ips (run d evs) = suspicious_ips d
            ∧ blocked_ips (run d evs) ⊆ blocked_ips d) as Hrun.
  { clear evs. intros evs. unfold run.
    induction evs as [|ev evs IH]; intros d Hinv Hc Hf; simpl; [done|].
    destruct (Hstep d Hinv Hc Hf ev) as (Hf1 & Hfc1 & Hs1 & Hb1).
    destruct (IH (step d ev)) as (Hf2 & Hfc2 & Hs2 & Hb2);
      [by apply step_inv | by rewrite step_config | done |].
    rewrite Hf2, Hfc2, Hs2, Hfc1, Hs1. split_and!; try done. by etrans. }
  apply (Hrun evs (init cfg lb lf)); [apply init_inv | done | done].
Qed.

End store_run_proofs.

(** ** Persistence *)

Lemma saves_track_refl d : saves_track d d.
Proof. by left. Qed.

Lemma saves_track_trans d1 d2 d3 :
  saves_track d1 d2 -> saves_track d2 d3 -> saves_track d1 d3.
Proof.
  intros [(Hb1 & Hf1 & Hs1)|[rest1 H1]] [(Hb2 & Hf2 & Hs2)|[rest2 H2]].
  - left. split_and!; congruence.
  - right. by exists rest2.
  - right. exists rest1. by rewrite Hs2, Hb2, Hf2.
  - right. by exists rest2.
Qed.

Lemma same_registry_saves_track d d' : same_registry d d' -> saves_track d d'.
Proof. intros (_ & ? & _ & ? & _ & ?). by left. Qed.

Lemma _block_ip_saves_track ip d : saves_track d (_block_ip ip d).2.
Proof.
  unfold _block_ip. case_decide; [by left|]. right. by eexists.
Qed.

Lemma fold_left_saves_track {A} (f : Detector -> A -> Detector) l d :
  (forall d x, saves_track d (f d x)) -> saves_track d (fold_left f l d).
Proof.
  intros Hf. revert d. induction l as [|x l IH]; intros d; simpl.
  - apply saves_track_refl.
  - eapply saves_track_trans; [apply Hf | apply IH].
Qed.

Section persistence_proofs.
Context `{Numerics}.
Implicit Types (d : Detector) (ip k : string) (r : TrafficRecord).

Lemma decide_inline_saves_track ip a d :
  saves_track d (decide_inline ip a d).2.
Proof.
  unfold decide_inline. destruct (Qltb _ a); [|by left].
  destruct (Qltb _ a); [|by left]. simpl.
  eapply saves_track_trans; [|apply _block_ip_saves_track]. by left.
Qed.

Lemma _check_anomaly_realtime_saves_track ip d :
  saves_track d (_check_anomaly_realtime ip d).2.
Proof.
  unfold _check_anomaly_realtime, score_and_decide.
  case_decide; [by left|].
  destruct (_ <? 10)%nat; [by left|].
  destruct (fit_raises _); [by left|]. simpl.
  destruct (dict_get ip (ip_features d)) as [x|]; [|by left].
  destruct (score_samples _ x) as [a|]; [|by left].
  eapply saves_track_trans; [|apply decide_inline_saves_track]. by left.
Qed.

Lemma sweep_ip_saves_track d e : saves_track d (sweep_ip d e).
Proof.
  unfold sweep_ip. case_decide; [by left|].
  destruct (Qltb _ e.2); [|by left].
  destruct (Qltb _ e.2); [|by left].
  eapply saves_track_trans; [|apply _block_ip_saves_track]. by left.
Qed.

Lemma step_saves_track d ev : saves_track d (step d ev).
Proof.
  destruct ev as [now ip ts b m u s|ip mark|now]; simpl.
  - unfold record_request. case_decide; [by left|].
    set (r := Build_TrafficRecord _ _ _ _ _).
    pose proof (same_registry_saves_track _ _
                  (store_request_registry now ip r d)) as H4.
    pose proof (same_registry_saves_track _ _
                  (refreshed_registry now ip r d)) as H5.
    destruct (enough_samples _ _); [|done].
    fold (refreshed now ip r d).
    destruct (scorable _ _); [|done].
    eapply saves_track_trans; [exact H5|].
    apply _check_anomaly_realtime_saves_track.
  - unfold unblock_ip. case_decide; [|by left]. right.
    destruct mark; by eexists.
  - unfold periodic_iteration. destruct (_ <? 5)%nat; [by left|].
    destruct (fit_raises _); [by left|].
    destruct (mapM _ _) as [scores|]; [|by left].
    eapply saves_track_trans;
      [|apply same_registry_saves_track, _clean_old_data_registry].
    eapply saves_track_trans;
      [|apply (fold_left_saves_track sweep_ip), sweep_ip_saves_track].
    by left.
Qed.

Lemma run_saves_track d evs : saves_track d (run d evs).
Proof.
  unfold run. revert d. induction evs as [|ev evs IH]; intros d; simpl.
  - apply saves_track_refl.
  - eapply saves_track_trans; [apply step_saves_track | apply IH].
Qed.

Lemma startup_written cfg snap :
  blocked_ips (startup cfg (Some (written_file snap))) = snap.1
  ∧ false_positives (startup cfg (Some (written_file snap))) = snap.2.
Proof.
  unfold startup, _load_state, written_file. simpl.
  by rewrite !list_to_set_elements_L.
Qed.

(** X17. The state file is never behind the registry: the detector hands
    the two sets to [_save_state] at every change of [blocked_ips] or
    [false_positives], so at any point of a run a restart from the file
    (the last one written, or the one the run started from if none was
    written) recovers exactly the current blocked and false-positive
    sets. *)
Theorem restart_recovers_registry cfg file evs :
  let d := run (startup cfg file) evs in
  blocked_ips (startup cfg (file_after file d)) = blocked_ips d
  ∧ false_positives (startup cfg (file_after file d)) = false_positives d.
Proof.
  cbv zeta.
  assert (save_calls (startup cfg file) = []) as Hnil.
  { unfold startup, _load_state. by destruct file. }
  pose proof (run_saves_track (startup cfg file) evs) as Htrack.
  unfold file_after.
  destruct Htrack as [(Hb & Hf & Hs)|[rest Hs]].
  - rewrite Hs, Hnil. by rewrite Hb, Hf.
  - rewrite Hs. apply (startup_written cfg (_, _)).
Qed.

(** X18. Shutdown and restart: [shutdown] writes the two sets, and a
    detector started from that file has the same blocked and
    false-positive sets; the suspicious set, the traffic store and the
    feature cache are not persisted and start empty. *)
Theorem shutdown_then_startup cfg file d :
  let d' := startup cfg (file_after file (shutdown d)) in
  blocked_ips d' = blocked_ips d ∧ false_positives d' = false_positives d
  ∧ suspicious_ips d' = ∅ ∧ traffic_data d' = [] ∧ ip_timestamps d' = []
  ∧ ip_features d' = [].
Proof.
  cbv zeta. unfold shutdown, file_after, _save_state. unfold_setters.
  destruct (startup_written cfg (blocked_ips d, false_positives d))
    as [Hb Hf].
  split_and!; [exact Hb | exact Hf | done..].
Qed.

(** ** The integrator *)

(** X19. The integrator refuses a request exactly when the request carries
    its three required fields and its source is blocked once the call
    returns ([is_ip_blocked]); a request that lacks [ip], [timestamp] or
    [bytes_sent] is allowed and never reaches the detector. Every call is
    counted. *)
Theorem process_request_refusal now rd i :
  ((process_request now rd i).1 = false
   <-> exists ip, rd_ip rd = Some ip ∧ is_Some (rd_timestamp rd)
                  ∧ is_Some (rd_bytes_sent rd)
                  ∧ is_ip_blocked ip (process_request now rd i).2 = true)
  ∧ (rd_ip rd = None ∨ rd_timestamp rd = None ∨ rd_bytes_sent rd = None ->
     (process_request now rd i).1 = true
     ∧ detector (process_request now rd i).2 = detector i)
  ∧ request_count (process_request now rd i).2 = S (request_count i).
Proof.
  unfold process_request, is_ip_blocked.
  destruct (rd_ip rd) as [ip|] eqn:Eip, (rd_timestamp rd) as [ts|] eqn:Ets,
    (rd_bytes_sent rd) as [b|] eqn:Eb; cbn [fst snd detector request_count].
  1: { split_and!; [|by intros [?|[?|?]] | done]. split.
       - intros Hf. exists ip. split_and!; eauto.
         apply bool_decide_eq_true. by apply record_request_refuses.
       - intros (ip' & [= <-] & _ & _ & Hb).
         apply bool_decide_eq_true in Hb. by apply record_request_refuses. }
  all: split_and!; [|done..].
  all: split; [done|].
  all: intros (ip' & Hip & [? Hts] & [? Hb] & _); congruence.
Qed.

(** X20. The integrator is the detector fed with the complete requests:
    after any sequence of [process_request] calls its detector is the one
    reached by [record_request] on the calls that carry the three required
    fields, in order, with [GET], [/] and 200 for the missing optional
    fields; and [request_count] has grown by the number of calls (for a
    new integrator it is the number of calls). *)
Theorem process_all_runs_the_detector i calls :
  detector (process_all i calls) = run (detector i) (events_of calls)
  ∧ request_count (process_all i calls) = request_count i + length calls
  ∧ forall threshold file,
      request_count (process_all (integrator_init threshold file) calls)
      = length calls.
Proof.
  assert (forall i0,
            detector (process_all i0 calls)
            = run (detector i0) (events_of calls)
            ∧ request_count (process_all i0 calls)
              = request_count i0 + length calls) as Hall.
  { unfold process_all, run.
    induction calls as [|[now rd] calls IH]; intros i0; simpl.
    - split; [done | lia].
    - destruct (IH (process_request now rd i0).2) as [Hd Hc].
      rewrite Hd, Hc. unfold events_of at 2. simpl.
      unfold process_request.
      destruct (rd_ip rd) as [ip|], (rd_timestamp rd) as [ts|],
        (rd_bytes_sent rd) as [b|]; simpl; split; try done; lia. }
  destruct (Hall i) as [Hd Hc]. split_and!; [done | done |].
  intros threshold file. by destruct (Hall (integrator_init threshold file)).
Qed.

End persistence_proofs.

(** ** Ranges of the features *)

Lemma Qof_nat_le n m : n <= m -> (Qof_nat n <= Qof_nat m)%Q.
Proof. intros Hle. unfold Qof_nat. rewrite <- Zle_Qle. lia. Qed.

Lemma Qof_nat_pos n : 0 < n -> (0 < Qof_nat n)%Q.
Proof.
  intros Hlt. unfold Qof_nat. change 0%Q with (inject_Z 0).
  rewrite <- Zlt_Qlt. lia.
Qed.

Lemma Qof_nat_nonneg n : (0 <= Qof_nat n)%Q.
Proof.
  unfold Qof_nat. change 0%Q with (inject_Z 0). rewrite <- Zle_Qle. lia.
Qed.

Lemma Qof_nat_add n m : Qof_nat (n + m) = (Qof_nat n + Qof_nat m)%Q.
Proof. unfold Qof_nat. by rewrite Nat2Z.inj_add, inject_Z_plus. Qed.

Lemma ratio_bounds c t : c <= t -> (0 <= ratio c t)%Q ∧ (ratio c t <= 1)%Q.
Proof.
  intros Hle. unfold ratio.
  destruct (Nat.ltb_spec 0 t) as [Ht|_]; [|done].
  pose proof (Qof_nat_pos t Ht) as Hpos. split.
  - apply Qle_shift_div_l; [done|]. rewrite Qmult_0_l. apply Qof_nat_nonneg.
  - apply Qle_shift_div_r; [done|]. rewrite Qmult_1_l. by apply Qof_nat_le.
Qed.

Lemma ratio_mono c1 c2 t : c1 <= c2 -> (ratio c1 t <= ratio c2 t)%Q.
Proof.
  intros Hle. unfold ratio.
  destruct (Nat.ltb_spec 0 t) as [Ht|_]; [|done].
  unfold Qdiv. apply Qmult_le_compat_r; [by apply Qof_nat_le|].
  apply Qinv_le_0_compat, Qof_nat_nonneg.
Qed.

Lemma ratio_add c1 c2 t :
  (ratio c1 t + ratio c2 t == ratio (c1 + c2) t)%Q.
Proof.
  unfold ratio. destruct (0 <? t)%nat; [|done].
  rewrite Qof_nat_add. unfold Qdiv. by rewrite Qmult_plus_distr_l.
Qed.

Lemma filter_length_disjoint {A} (P Q : A -> Prop)
    `{forall x, Decision (P x)} `{forall x, Decision (Q x)} (l : list A) :
  (forall x, P x -> Q x -> False) ->
  length (filter P l) + length (filter Q l) <= length l.
Proof.
  intros Hdis. induction l as [|x l IH]; [done|].
  rewrite !filter_cons.
  destruct (decide (P x)) as [Hp|Hp], (decide (Q x)) as [Hq|Hq]; simpl;
    [by destruct (Hdis x) | lia..].
Qed.

Lemma filter_length_impl {A} (P Q : A -> Prop)
    `{forall x, Decision (P x)} `{forall x, Decision (Q x)} (l : list A) :
  (forall x, P x -> Q x) ->
  length (filter P l) <= length (filter Q l).
Proof.
  intros Himp. induction l as [|x l IH]; [done|].
  rewrite !filter_cons.
  destruct (decide (P x)) as [Hp|Hp], (decide (Q x)) as [Hq|Hq]; simpl;
    [lia | by destruct Hq; auto | lia | lia].
Qed.

Lemma remove_dups_length {A} `{EqDecision A} (l : list A) :
  length (remove_dups l) <= length l.
Proof.
  induction l as [|x l IH]; simpl; [done|].
  destruct (decide_rel _ _ _); simpl; lia.
Qed.

Lemma remove_dups_nonempty {A} `{EqDecision A} (l : list A) :
  l ≠ [] -> 0 < length (remove_dups l).
Proof.
  intros Hne. destruct (remove_dups l) as [|y l'] eqn:E; [|simpl; lia].
  destruct l as [|x l]; [done|].
  assert (x ∈ remove_dups (x :: l)) as Hin
    by (apply elem_of_remove_dups, list_elem_of_here).
  rewrite E in Hin. by apply elem_of_nil in Hin.
Qed.

(** *** The burst count *)

Lemma dict_set_sum (k : Z) (v : nat) (bc : list (Z * nat)) :
  sum_list (dict_values (dict_set k v bc)) + default 0 (dict_get k bc)
  = sum_list (dict_values bc) + v.
Proof.
  unfold dict_values. induction bc as [|[k' v'] bc IH]; csimpl; [lia|].
  destruct (decide (k = k')) as [->|Hk]; csimpl; lia.
Qed.

Lemma bucket_add_sum bc ts :
  sum_list (dict_values (bucket_add bc ts)) = S (sum_list (dict_values bc)).
Proof.
  unfold bucket_add.
  set (k := py_int ts).
  assert (sum_list (dict_values (dict_touch 0 k bc))
          = sum_list (dict_values bc)
          ∧ dict_get k (dict_touch 0 k bc)
            = Some (default 0 (dict_get k bc))) as [Hs Hg].
  { unfold dict_touch. destruct (dict_get k bc) as [v|] eqn:E; [done|].
    pose proof (dict_set_sum k 0 bc) as Hsum. rewrite E in Hsum. simpl in *.
    split; [lia|]. rewrite dict_get_set. by rewrite decide_True. }
  pose proof (dict_set_sum k (S (default 0 (dict_get k (dict_touch 0 k bc))))
                (dict_touch 0 k bc)) as Hsum.
  rewrite Hg in Hsum. simpl in Hsum. rewrite Hg. simpl. lia.
Qed.

Lemma bucket_fold_sum timestamps bc :
  sum_list (dict_values (fold_left bucket_add timestamps bc))
  = sum_list (dict_values bc) + length timestamps.
Proof.
  revert bc. induction timestamps as [|t ts IH]; intros bc; simpl; [lia|].
  rewrite IH, bucket_add_sum. lia.
Qed.

Lemma dict_get_value_in {V} (k : Z) (v : V) (bc : list (Z * V)) :
  dict_get k bc = Some v -> v ∈ dict_values bc.
Proof.
  unfold dict_values. induction bc as [|[k' v'] bc IH]; csimpl; [done|].
  destruct (decide (k = k')) as [->|Hk].
  - intros [= ->]. apply list_elem_of_here.
  - intros Hg. apply list_elem_of_further. by apply IH.
Qed.

Lemma bucket_add_positive bc ts :
  exists v, S v ∈ dict_values (bucket_add bc ts).
Proof.
  unfold bucket_add. eexists. eapply dict_get_value_in.
  rewrite dict_get_set. by rewrite decide_True.
Qed.

Lemma max_list_le_sum ns : max_list ns <= sum_list ns.
Proof. induction ns as [|n ns IH]; simpl; lia. Qed.

Section feature_proofs.
Context `{Numerics}.

Lemma max_burst_bounds timestamps :
  timestamps ≠ [] ->
  1 <= max_burst timestamps ∧ max_burst timestamps <= length timestamps.
Proof.
  intros Hne. unfold max_burst.
  destruct (Nat.ltb_spec 1 (length timestamps)) as [Hlt|Hle].
  - split.
    + destruct (exists_last Hne) as (l & t & ->).
      rewrite fold_left_app. simpl.
      destruct (bucket_add_positive (fold_left bucket_add l []) t)
        as [v Hv].
      apply max_list_elem_of_le in Hv. lia.
    + etrans; [apply max_list_le_sum|].
      rewrite bucket_fold_sum. simpl. lia.
  - destruct timestamps; [done|]. simpl in *. lia.
Qed.

(** X21. The ratio features are proportions: for a window of at least two
    records, [get_ratio], [post_ratio], [unique_urls], [error_ratio] and
    [4xx_ratio] lie between 0 and 1, [get_ratio + post_ratio] is at most 1,
    [4xx_ratio] is at most [error_ratio], and [unique_urls] is positive. *)
Theorem ratio_features_are_proportions data :
  2 <= length data ->
  exists req_rate avg std bytes_rate get_r post_r uniq err r4xx burst,
    compute_features data
    = [req_rate; avg; std; bytes_rate; get_r; post_r; uniq; err; r4xx; burst]
    ∧ (0 <= get_r)%Q ∧ (0 <= post_r)%Q ∧ (get_r + post_r <= 1)%Q
    ∧ (0 < uniq)%Q ∧ (uniq <= 1)%Q
    ∧ (0 <= r4xx)%Q ∧ (r4xx <= err)%Q ∧ (err <= 1)%Q.
Proof.
  intros Hlen. unfold compute_features. cbv zeta.
  do 10 eexists. split; [reflexivity|].
  rewrite !length_fmap.
  assert (0 < length data) as Hpos by lia.
  split_and!.
  - apply ratio_bounds. etrans; [apply length_filter|]. by rewrite length_fmap.
  - apply ratio_bounds. etrans; [apply length_filter|]. by rewrite length_fmap.
  - rewrite ratio_add. apply ratio_bounds.
    etrans; [apply filter_length_disjoint|by rewrite length_fmap].
    intros x -> [=].
  - apply Qlt_shift_div_l; [by apply Qof_nat_pos|]. rewrite Qmult_0_l.
    apply Qof_nat_pos, remove_dups_nonempty.
    destruct data; [simpl in Hlen; lia | done].
  - apply Qle_shift_div_r; [by apply Qof_nat_pos|]. rewrite Qmult_1_l.
    apply Qof_nat_le. etrans; [apply remove_dups_length|].
    by rewrite length_fmap.
  - apply ratio_bounds. etrans; [apply length_filter|]. by rewrite length_fmap.
  - apply ratio_mono, filter_length_impl. by intros x [? _].
  - apply ratio_bounds. etrans; [apply length_filter|]. by rewrite length_fmap.
Qed.

(** X22. The request rate is bounded by the floor on the time span: for
    a window of [n >= 2] records, [req_rate] is positive and at most
    [1000 * n] (the span is never taken below 0.001 s), and [max_burst] is
    at least 1 and at most [n]. *)
Theorem rate_and_burst_bounds data :
  2 <= length data ->
  exists req_rate avg std bytes_rate get_r post_r uniq err r4xx burst,
    compute_features data
    = [req_rate; avg; std; bytes_rate; get_r; post_r; uniq; err; r4xx; burst]
    ∧ (0 < req_rate)%Q ∧ (req_rate <= Qof_nat (length data) * 1000)%Q
    ∧ (1 <= burst)%Q ∧ (burst <= Qof_nat (length data))%Q.
Proof.
  intros Hlen. unfold compute_features. cbv zeta.
  do 10 eexists. split; [reflexivity|].
  set (span := (Qmax_list _ - Qmin_list _)%Q).
  set (time_span := if Qltb span (1 # 1000) then (1 # 1000)%Q else span).
  assert (1 # 1000 <= time_span)%Q as Hts.
  { subst time_span. destruct (Qltb span (1 # 1000)) eqn:E; [done|].
    by apply Qltb_ge. }
  assert (0 < time_span)%Q as Hpos by (eapply Qlt_le_trans; [|exact Hts]; done).
  assert (0 < Qof_nat (length data))%Q as Hn by (apply Qof_nat_pos; lia).
  assert (timestamp <$> data ≠ []) as Hne.
  { destruct data; [simpl in Hlen; lia | done]. }
  destruct (max_burst_bounds _ Hne) as [Hb1 Hb2].
  rewrite length_fmap in Hb2.
  split_and!.
  - apply Qlt_shift_div_l; [done|]. by rewrite Qmult_0_l.
  - apply Qle_shift_div_r; [done|].
    apply Qle_trans with (Qof_nat (length data) * 1000 * (1 # 1000))%Q.
    + apply Qle_lteq. right. ring.
    + apply Qmult_le_l; [|done]. by apply Qmult_lt_0_compat.
  - change 1%Q with (Qof_nat 1). by apply Qof_nat_le.
  - by apply Qof_nat_le.
Qed.

End feature_proofs.

(** ** The feature cache *)

Section cache_proofs.
Context `{Numerics}.
Implicit Types (d : Detector) (ip k : string) (r : TrafficRecord).

(** X23. The cached vector of the requesting source is fresh: after an
    accepted request that leaves the source with at least two records and
    at least [min(5, features_window)], the vector cached for the source is
    the one extracted from its window as it stands after the call. *)
Theorem requester_vector_is_fresh now ip ts b m u s d :
  ip ∉ blocked_ips d ->
  let d' := (record_request now ip ts b m u s d).2 in
  2 <= length (window ip d') ->
  Nat.min 5 (features_window (config d)) <= length (window ip d') ->
  dict_get ip (ip_features d') = Some (compute_features (window ip d')).
Proof.
  intros Hb. cbv zeta.
  destruct (record_request_store now ip ts b m u s d Hb) as [Hw _].
  rewrite Hw. intros H2 Hmin.
  unfold record_request. rewrite decide_False by done.
  set (r := Build_TrafficRecord _ _ _ _ _) in *.
  destruct (store_request_registry now ip r d) as (Hc4 & _).
  unfold enough_samples. rewrite Hc4.
  destruct (Nat.leb_spec (Nat.min 5 (features_window (config d)))
              (length (window ip (store_request now ip r d)))); [|lia].
  assert (dict_get ip (ip_features (_extract_features_for_ip ip
                                      (store_request now ip r d)))
          = Some (compute_features (window ip (store_request now ip r d))))
    as Hfe.
  { rewrite features_extract, decide_True by done.
    by destruct (Nat.ltb_spec (length (window ip (store_request now ip r d)))
                   2); [lia|]. }
  destruct (scorable _ _); [|done].
  destruct (_check_anomaly_realtime_marks ip
              (_extract_features_for_ip ip (store_request now ip r d)))
    as (_ & _ & _ & -> & _).
  done.
Qed.

Lemma _clean_old_data_complete now d :
  NoDup (dict_keys (ip_timestamps d)) ->
  vectors_complete d -> vectors_complete (_clean_old_data now d).
Proof.
  intros Hnd Hv ip x Hx. apply (Hv ip).
  pose proof (prune_at now d ip Hnd) as Hat. cbv zeta in Hat.
  destruct (dict_get ip (ip_timestamps d)) as [[|t l]|].
  - destruct Hat as (_ & _ & <-). done.
  - destruct (kept _ (t :: l)); destruct Hat as (_ & _ & Hf); congruence.
  - destruct Hat as (_ & _ & <-). done.
Qed.

Lemma step_complete d ev :
  store_inv d -> vectors_complete d -> vectors_complete (step d ev).
Proof.
  intros Hinv Hv.
  assert (forall ip0 d0, store_inv d0 -> vectors_complete d0 ->
            vectors_complete (_extract_features_for_ip ip0 d0)) as Hext.
  { intros ip0 d0 _ Hv0 k x. rewrite features_extract.
    case_decide; [|apply Hv0]. destruct (_ <? 2)%nat; [apply Hv0|].
    by intros [= <-]. }
  destruct ev as [now ip ts b m u s|ip mark|now]; simpl.
  - unfold record_request. case_decide; [done|].
    set (r := Build_TrafficRecord _ _ _ _ _).
    assert (vectors_complete (store_request now ip r d)) as H4.
    { rewrite store_request_appended.
      pose proof (appended_inv ip r d Hinv) as ((_ & Hnd & _) & _).
      apply (_clean_old_data_complete now) in Hnd; [exact Hnd|].
      exact Hv. }
    pose proof (store_request_inv now ip r d Hinv) as Hinv4.
    destruct (enough_samples _ _); [|done].
    pose proof (Hext ip _ Hinv4 H4) as H5.
    destruct (scorable _ _); [|done].
    destruct (_check_anomaly_realtime_marks ip
                (_extract_features_for_ip ip (store_request now ip r d)))
      as (_ & _ & _ & Hf & _).
    unfold vectors_complete. by rewrite Hf.
  - unfold unblock_ip. case_decide; [|done]. by destruct mark.
  - unfold periodic_iteration. destruct (_ <? 5)%nat; [done|].
    destruct (fit_raises _); [done|].
    destruct (mapM _ _) as [scores|]; [|done].
    set (d1 := set_fit_calls _ d).
    assert (store_inv d1 ∧ vectors_complete d1) as Hd1 by done.
    assert (forall entries d0, store_inv d0 ∧ vectors_complete d0 ->
              store_inv (fold_left sweep_ip entries d0)
              ∧ vectors_complete (fold_left sweep_ip entries d0)) as Hfold.
    { induction entries as [|e es IH]; intros d0 [Hi0 Hv0]; simpl; [done|].
      apply IH. pose proof (sweep_ip_marks d0 e) as Hm. split.
      - by eapply marks_only_inv.
      - destruct Hm as (_ & _ & _ & Hf & _).
        unfold vectors_complete. by rewrite Hf. }
    destruct (Hfold (zip (dict_keys (ip_features d)) scores) d1 Hd1)
      as [((_ & Hnd & _) & _) Hvf].
    by apply _clean_old_data_complete.
Qed.

(** X24. The matrix handed to scikit-learn is rectangular: in every state
    the detector reaches, each cached feature vector has exactly ten
    features, and so has each row of the population of a sweep. *)
Theorem feature_matrix_is_rectangular cfg lb lf evs :
  let d := run (init cfg lb lf) evs in
  Forall (fun row => length row = 10) (dict_values (ip_features d))
  ∧ Forall (fun row => length row = 10) (feature_matrix d).
Proof.
  cbv zeta.
  assert (store_inv (run (init cfg lb lf) evs)
          ∧ vectors_complete (run (init cfg lb lf) evs)) as [Hinv Hv].
  { unfold run. generalize (init_inv cfg lb lf).
    assert (vectors_complete (init cfg lb lf)) as Hv0 by done.
    revert Hv0. generalize (init cfg lb lf) as d.
    induction evs as [|ev evs IH]; intros d Hv0 Hi0; simpl; [done|].
    apply IH; [by apply step_complete | by apply step_inv]. }
  set (d := run (init cfg lb lf) evs) in *.
  destruct Hinv as ((_ & _ & Hnd) & _).
  assert (forall k x, (k, x) ∈ ip_features d -> length x = 10) as Hin.
  { intros k x Hkx. apply (Hv k).
    revert Hnd Hkx. unfold dict_keys.
    induction (ip_features d) as [|[k' x'] l IH]; csimpl; intros Hnd Hkx.
    - by apply elem_of_nil in Hkx.
    - apply NoDup_cons in Hnd as [Hnin Hnd].
      apply elem_of_cons in Hkx as [[= -> ->]|Hkx].
      + by rewrite decide_True.
      + rewrite decide_False; [by apply IH|].
        intros ->. apply Hnin. by apply (list_elem_of_fmap_2 fst) in Hkx. }
  split.
  - apply Forall_forall. intros x Hx. unfold dict_values in Hx.
    apply list_elem_of_fmap in Hx as [[k x'] [-> Hkx]]. by eapply Hin.
  - apply Forall_forall. intros x Hx. unfold feature_matrix in Hx.
    apply list_elem_of_fmap in Hx as [k [-> Hk]].
    destruct (dict_get k (ip_features d)) as [x|] eqn:E.
    + simpl. by eapply Hv.
    + by apply dict_get_None in E.
Qed.

End cache_proofs.

(** * The claims on concrete runs *)

(** C2 on a detector started with one blocked address. *)
Lemma blocked_short_circuit_witness :
  record_request (H := uniform_numerics) 0 "10.0.0.99" 0 1500 "GET"
    "/login.php" 200 (init cfg_default {["10.0.0.99"%string]} ∅)
  = (false, init cfg_default {["10.0.0.99"%string]} ∅)
  ∧ window "10.0.0.99"
      (record_request (H := uniform_numerics) 0 "10.0.0.99" 0 1500 "GET"
         "/login.php" 200 (init cfg_default {["10.0.0.99"%string]} ∅)).2
    = window "10.0.0.99" (init cfg_default {["10.0.0.99"%string]} ∅).
Proof.
  apply (@blocked_short_circuit uniform_numerics).
  vm_compute. reflexivity.
Defined.

(** C3 on the trace of sixteen bursts and a sweep, ["k11"] being a false
    positive from the start. *)
Lemma false_positive_override_witness :
  let d := init (cfg_of (1 # 5)) ∅ {["k11"%string]} in
  let d' := run (H := uniform_numerics) d monotonicity_trace in
  "k11"%string ∈ false_positives d' ∧ ("k11"%string ∉ blocked_ips d')
  ∧ ("k11"%string ∈ suspicious_ips d' -> "k11"%string ∈ suspicious_ips d)
  ∧ forall now ts b m u s,
      (record_request (H := uniform_numerics) now "k11" ts b m u s d').1
      = true
      ∧ same_registry d'
          (record_request (H := uniform_numerics) now "k11" ts b m u s d').2.
Proof.
  apply (@false_positive_override uniform_numerics).
  - vm_compute. reflexivity.
  - vm_compute. discriminate.
Defined.

(** C4 on the fifth request of the eleventh source: eleven cached vectors,
    the [try] block runs. *)
Lemma inline_population_gate_witness :
  record_request (H := uniform_numerics) 0 "k11" 0 100 "GET" "/" 200
    (warm (1 # 5) ∅)
  = score_and_decide (H := uniform_numerics) "k11"
      (refreshed (H := uniform_numerics) 0 "k11" (burst_record 0)
         (warm (1 # 5) ∅)).
Proof.
  assert ("k11"%string ∉ blocked_ips (warm (1 # 5) ∅)) as Hb.
  { vm_compute. discriminate. }
  assert (enough_samples "k11"
            (store_request 0 "k11" (burst_record 0) (warm (1 # 5) ∅))
          = true) as Hen.
  { vm_compute. reflexivity. }
  destruct (@inline_population_gate uniform_numerics 0 "k11" 0 100 "GET" "/"
              200 (warm (1 # 5) ∅) Hb Hen) as (_ & Hscore & _).
  apply Hscore.
  - vm_compute. repeat constructor.
  - vm_compute. reflexivity.
  - vm_compute. discriminate.
Defined.

(** C4 fails as stated: with exactly ten cached vectors, or with eleven and
    the address a false positive, the request is allowed and nothing is
    trained or scored, although the address has a cached vector. *)
Lemma gate_at_ten_counterexample :
  (let res := record_request (H := uniform_numerics) 0 "k10" 0 100 "GET" "/"
                200 nine_and_four in
   length (ip_features res.2) = 10
   ∧ dict_has "k10"%string (ip_features res.2) = true
   ∧ ("k10"%string ∉ false_positives res.2)
   ∧ res.1 = true ∧ fit_calls res.2 = []
   ∧ fit_calls
       (score_and_decide (H := uniform_numerics) "k10"
          (refreshed (H := uniform_numerics) 0 "k10" (burst_record 0)
             nine_and_four)).2 ≠ [])
  ∧ (let res := record_request (H := uniform_numerics) 0 "k11" 0 100 "GET"
                  "/" 200 (warm (1 # 5) {["k11"%string]}) in
     length (ip_features res.2) = 11
     ∧ dict_has "k11"%string (ip_features res.2) = true
     ∧ res.1 = true ∧ fit_calls res.2 = []).
Proof.
  cbv zeta. split_and!; try (vm_compute; reflexivity);
    vm_compute; discriminate.
Qed.

(** C5 on the two paths: under threshold 1/5 the fifth request of ["k11"]
    scores 1/2 and is refused, the address blocked; under threshold 7/20
    the sweep scores ["n1"] at 1/2 and blocks it. *)
Lemma decision_policy_witness :
  (let r := _check_anomaly_realtime (H := uniform_numerics) "k11"
              (refreshed (H := uniform_numerics) 0 "k11" (burst_record 0)
                 (warm (1 # 5) ∅)) in
   "k11"%string ∈ blocked_ips r.2 ∧ r.1 = false)
  ∧ "n1"%string
      ∈ blocked_ips
          (periodic_iteration (H := uniform_numerics) 401
             (before_sweep (7 # 20))).
Proof.
  destruct (@decision_policy uniform_numerics) as [Hinline Hsweep]. split.
  - set (d := refreshed (H := uniform_numerics) 0 "k11" (burst_record 0)
                (warm (1 # 5) ∅)).
    destruct (Hinline "k11"%string d
                (default [] (dict_get "k11"%string (ip_features d)))
                (1 # 2)%Q) as [Hhi _].
    + vm_compute. discriminate.
    + vm_compute. discriminate.
    + vm_compute. repeat constructor.
    + vm_compute. reflexivity.
    + vm_compute. reflexivity.
    + vm_compute. reflexivity.
    + destruct Hhi as (_ & Hblocked & Hret & _).
      * vm_compute. reflexivity.
      * split; [apply Hblocked | apply Hret]; vm_compute; reflexivity.
  - destruct (Hsweep 401%Q (before_sweep (7 # 20))
                (replicate 5 (1 # 2)%Q) 0%nat "n1"%string (1 # 2)%Q)
      as [Hhi _].
    + vm_compute. repeat constructor; vm_compute; intros Hin;
        repeat (apply elem_of_cons in Hin as [Hin|Hin]; [discriminate|]);
        by apply elem_of_nil in Hin.
    + vm_compute. repeat constructor.
    + vm_compute. reflexivity.
    + vm_compute. reflexivity.
    + vm_compute. reflexivity.
    + vm_compute. reflexivity.
    + vm_compute. discriminate.
    + vm_compute. discriminate.
    + destruct Hhi as (_ & Hblocked & _).
      * vm_compute. reflexivity.
      * apply Hblocked. vm_compute. reflexivity.
Defined.

(** C6, one sweep from the same state under thresholds 1/5 and 7/20. *)
Lemma threshold_monotone_step_witness :
  blocked_ips
    (step (H := uniform_numerics)
       (set_threshold (7 # 20) (before_sweep (4 # 5))) (Sweep 401))
    ⊆ blocked_ips
        (step (H := uniform_numerics)
           (set_threshold (1 # 5) (before_sweep (4 # 5))) (Sweep 401))
  ∧ (size (blocked_ips
             (step (H := uniform_numerics)
                (set_threshold (7 # 20) (before_sweep (4 # 5))) (Sweep 401)))
     <= size (blocked_ips
                (step (H := uniform_numerics)
                   (set_threshold (1 # 5) (before_sweep (4 # 5)))
                   (Sweep 401))))%nat.
Proof.
  apply (@threshold_monotone_step uniform_numerics).
  vm_compute. discriminate.
Defined.

(** C6 fails over a whole trace. Eleven sources send the same burst at
    clock 0, then four new sources and ["k11"] send it at clock 400, then a
    sweep runs; every population that is scored consists of identical rows,
    which score 1/2. Under threshold 1/5 the inline check blocks ["k11"] at
    clock 0, its later burst is refused, only four vectors are cached and
    the sweep is skipped: one address is blocked. Under threshold 7/20 the
    inline check does not block (1/2 is below 1.5 * 7/20), five vectors are
    cached and the sweep blocks all five (1/2 exceeds 1.3 * 7/20). *)
Lemma threshold_monotonicity_counterexample :
  (1 # 5 <= 7 # 20)%Q
  ∧ size (blocked_ips
            (run (H := uniform_numerics) (init (cfg_of (1 # 5)) ∅ ∅)
               monotonicity_trace)) = 1
  ∧ size (blocked_ips
            (run (H := uniform_numerics) (init (cfg_of (7 # 20)) ∅ ∅)
               monotonicity_trace)) = 5
  ∧ ¬ (size (blocked_ips
               (run (H := uniform_numerics) (init (cfg_of (7 # 20)) ∅ ∅)
                  monotonicity_trace))
       <= size (blocked_ips
                  (run (H := uniform_numerics) (init (cfg_of (1 # 5)) ∅ ∅)
                     monotonicity_trace)))%nat.
Proof.
  split_and!.
  - vm_compute. discriminate.
  - vm_compute. reflexivity.
  - vm_compute. reflexivity.
  - vm_compute. intros Hle. inversion Hle as [|? Hle']. inversion Hle'.
Qed.

(** C7 on the fifth request of the eleventh source. *)
Lemma retraining_witness :
  fit_calls
    (record_request (H := uniform_numerics) 0 "k11" 0 100 "GET" "/" 200
       (warm (4 # 5) ∅)).2
  = dict_values
      (ip_features
         (refreshed (H := uniform_numerics) 0 "k11" (burst_record 0)
            (warm (4 # 5) ∅)))
    :: fit_calls (warm (4 # 5) ∅).
Proof.
  destruct (@retraining_on_every_scoring_call uniform_numerics)
    as (Hinline & _ & _).
  apply (Hinline 0%Q "k11"%string 0%Q 100%Z "GET"%string "/"%string 200%Z
           (warm (4 # 5) ∅)).
  - vm_compute. discriminate.
  - vm_compute. discriminate.
  - vm_compute. reflexivity.
  - vm_compute. reflexivity.
  - vm_compute. reflexivity.
Defined.

(** C7 fails as stated: the trace holds requests only, no sweep. When the
    twelfth source sends its fifth request a model has been published (by
    the fifth request of the eleventh source), and the call fits the model
    again, on the twelve cached vectors. *)
Lemma retraining_counterexample :
  let d := run (H := uniform_numerics) (init cfg_default ∅ ∅)
             (take 59 retrain_trace) in
  let d' := (record_request (H := uniform_numerics) 0 "k12" 0 100 "GET" "/"
               200 d).2 in
  model_published d = true ∧ length (fit_calls d) = 1
  ∧ fit_calls d' = dict_values (ip_features d') :: fit_calls d
  ∧ length (ip_features d') = 12 ∧ length (fit_calls d') = 2
  ∧ d' = run (H := uniform_numerics) (init cfg_default ∅ ∅) retrain_trace.
Proof.
  cbv zeta. split_and!; vm_compute; reflexivity.
Qed.

(** C8 fails as stated: after its first request a source is in the store
    (a deque and a timestamp list are held for it) and [monitoring_ips] is
    still 0. *)
Lemma monitoring_counterexample :
  let d := run (H := uniform_numerics) (init cfg_default ∅ ∅)
             [Request 0 "a" 0 100 "GET" "/" 200] in
  dict_keys (traffic_data d) = ["a"%string]
  ∧ dict_keys (ip_timestamps d) = ["a"%string]
  ∧ window "a" d = [burst_record 0]
  ∧ st_monitoring_ips (get_status d) = 0.
Proof.
  cbv zeta. split_and!; vm_compute; reflexivity.
Qed.

(** C9 on a blocked address unblocked with the mark set. *)
Lemma unblock_ip_spec_witness :
  "10.0.0.99"%string
    ∈ false_positives
        (unblock_ip "10.0.0.99" true
           (init cfg_default {["10.0.0.99"%string]} ∅)).2.
Proof.
  destruct (unblock_ip_spec "10.0.0.99" true
              (init cfg_default {["10.0.0.99"%string]} ∅))
    as (_ & _ & Hfp & _).
  apply Hfp; [vm_compute|]; reflexivity.
Defined.

(** * More of the code, on concrete runs *)

Lemma uniform_scores_at_most_one : scores_at_most_one (H := uniform_numerics).
Proof.
  intros X x a Hs. simpl in Hs.
  destruct (forallb (row_eqb x) X); [|done].
  injection Hs as <-. vm_compute. discriminate.
Qed.

(** X4 on the fifth request of the eleventh source, threshold 4/5. *)
Lemma inline_never_blocks_from_two_thirds_witness :
  (record_request (H := uniform_numerics) 0 "k11" 0 100 "GET" "/" 200
     (warm (4 # 5) ∅)).1 = true
  ∧ blocked_ips
      (record_request (H := uniform_numerics) 0 "k11" 0 100 "GET" "/" 200
         (warm (4 # 5) ∅)).2
    = blocked_ips (warm (4 # 5) ∅).
Proof.
  apply (@inline_never_blocks_from_two_thirds uniform_numerics).
  - apply uniform_scores_at_most_one.
  - vm_compute. discriminate.
  - vm_compute. discriminate.
Defined.

(** X5 on the trace of sixteen bursts and a sweep, threshold 4/5. *)
Lemma nothing_blocked_from_ten_thirteenths_witness :
  blocked_ips
    (run (H := uniform_numerics) (init cfg_default ∅ ∅) monotonicity_trace)
    ⊆ blocked_ips (init cfg_default ∅ ∅).
Proof.
  apply (@nothing_blocked_from_ten_thirteenths uniform_numerics).
  - apply uniform_scores_at_most_one.
  - vm_compute. discriminate.
Defined.

(** X6 on an address blocked at start, unblocked with the mark, then the
    eleven bursts. *)
Lemma unblock_as_false_positive_is_final_witness :
  let d' := run (H := uniform_numerics)
              (unblock_ip "10.0.0.99" true
                 (init cfg_default {["10.0.0.99"%string]} ∅)).2
              retrain_prefix in
  ("10.0.0.99"%string ∉ blocked_ips d')
  ∧ (record_request (H := uniform_numerics) 0 "10.0.0.99" 0 1500 "GET"
       "/login.php" 200 d').1 = true.
Proof.
  apply (@unblock_as_false_positive_is_final uniform_numerics).
  vm_compute. reflexivity.
Defined.

(** X7 on the request that blocks ["k11"] under threshold 1/5. *)
Lemma unblock_undoes_request_witness :
  let res := record_request (H := uniform_numerics) 0 "k11" 0 100 "GET" "/"
               200 (warm (1 # 5) ∅) in
  blocked_ips (unblock_ip "k11" false res.2).2 = blocked_ips (warm (1 # 5) ∅)
  ∧ ((unblock_ip "k11" false res.2).1 = true <-> res.1 = false).
Proof.
  apply (@unblock_undoes_request uniform_numerics).
  vm_compute. discriminate.
Defined.

(** X12 on the source of [stale_trace], pruned at clock 1000. *)
Lemma prune_leaves_recent_heads_witness :
  exists t rest, [1000%Q] = t :: rest ∧ (1000 - window_size cfg_default <= t)%Q.
Proof.
  apply (@prune_leaves_recent_heads uniform_numerics cfg_default ∅ ∅
           stale_trace 1000%Q "a"%string).
  vm_compute. reflexivity.
Defined.

(** X13 on a source that sent five requests at clock 0, pruned at 1000. *)
Lemma prune_drops_expired_source_witness :
  let d := run (H := uniform_numerics) (init cfg_default ∅ ∅) (burst 0 "a") in
  dict_get "a"%string (traffic_data (_clean_old_data 1000 d)) = None
  ∧ dict_get "a"%string (ip_timestamps (_clean_old_data 1000 d)) = None
  ∧ dict_get "a"%string (ip_features (_clean_old_data 1000 d)) = None
  ∧ window "a" (_clean_old_data 1000 d) = [].
Proof.
  apply (@prune_drops_expired_source uniform_numerics cfg_default ∅ ∅
           (burst 0 "a") 1000%Q "a"%string [0; 0; 0; 0; 0]%Q).
  - vm_compute. reflexivity.
  - repeat constructor.
Defined.

(** X14 on a sixth request of ["k1"] at clock 5. *)
Lemma in_window_request_is_recorded_witness :
  let d := run (H := uniform_numerics) (init cfg_default ∅ ∅)
             retrain_prefix in
  let d' := (record_request (H := uniform_numerics) 5 "k1" 5 100 "GET" "/"
               200 d).2 in
  last (window "k1" d') = Some (burst_record 5)
  ∧ exists old, dict_get "k1"%string (ip_timestamps d') = Some (old ++ [5%Q]).
Proof.
  apply (@in_window_request_is_recorded uniform_numerics cfg_default ∅ ∅
           retrain_prefix 5%Q "k1"%string 5%Q 100%Z "GET"%string "/"%string
           200%Z).
  - vm_compute. discriminate.
  - vm_compute. repeat constructor.
  - vm_compute. discriminate.
Defined.

(** X15 on a new source whose first request, stamped 0, arrives at clock
    1000. *)
Lemma expired_request_leaves_empty_deque_witness :
  let d := run (H := uniform_numerics) (init cfg_default ∅ ∅)
             retrain_prefix in
  let res := record_request (H := uniform_numerics) 1000 "late" 0 100 "GET"
               "/" 200 d in
  res.1 = true
  ∧ dict_get "late"%string (ip_timestamps res.2) = None
  ∧ dict_get "late"%string (ip_features res.2) = None
  ∧ dict_get "late"%string (traffic_data res.2) = Some []
  ∧ forall now', dict_get "late"%string
                   (traffic_data (_clean_old_data now' res.2)) = Some [].
Proof.
  apply (@expired_request_leaves_empty_deque uniform_numerics cfg_default ∅ ∅
           retrain_prefix 1000%Q "late"%string 0%Q 100%Z "GET"%string
           "/"%string 200%Z).
  - vm_compute. discriminate.
  - vm_compute. reflexivity.
  - vm_compute. reflexivity.
Defined.

(** X16 on the trace of sixteen bursts and a sweep, with deques of one
    record. *)
Lemma inert_below_two_records_witness :
  let d := run (H := uniform_numerics) (init cfg_single ∅ ∅)
             monotonicity_trace in
  ip_features d = [] ∧ fit_calls d = [] ∧ suspicious_ips d = ∅
  ∧ blocked_ips d ⊆ ∅.
Proof.
  apply (@inert_below_two_records uniform_numerics cfg_single ∅ ∅
           monotonicity_trace).
  vm_compute. repeat constructor.
Defined.

(** X21 on a window of five identical records. *)
Lemma ratio_features_are_proportions_witness :
  exists req_rate avg std bytes_rate get_r post_r uniq err r4xx burst,
    compute_features (H := uniform_numerics) (replicate 5 (burst_record 0))
    = [req_rate; avg; std; bytes_rate; get_r; post_r; uniq; err; r4xx; burst]
    ∧ (0 <= get_r)%Q ∧ (0 <= post_r)%Q ∧ (get_r + post_r <= 1)%Q
    ∧ (0 < uniq)%Q ∧ (uniq <= 1)%Q
    ∧ (0 <= r4xx)%Q ∧ (r4xx <= err)%Q ∧ (err <= 1)%Q.
Proof.
  apply (@ratio_features_are_proportions uniform_numerics).
  vm_compute. repeat constructor.
Defined.

(** X22 on a window of five identical records. *)
Lemma rate_and_burst_bounds_witness :
  exists req_rate avg std bytes_rate get_r post_r uniq err r4xx burst,
    compute_features (H := uniform_numerics) (replicate 5 (burst_record 0))
    = [req_rate; avg; std; bytes_rate; get_r; post_r; uniq; err; r4xx; burst]
    ∧ (0 < req_rate)%Q
    ∧ (req_rate
       <= Qof_nat (length (replicate 5 (burst_record 0))) * 1000)%Q
    ∧ (1 <= burst)%Q
    ∧ (burst <= Qof_nat (length (replicate 5 (burst_record 0))))%Q.
Proof.
  apply (@rate_and_burst_bounds uniform_numerics).
  vm_compute. repeat constructor.
Defined.

(** X23 on the fifth request of the eleventh source. *)
Lemma requester_vector_is_fresh_witness :
  let d' := (record_request (H := uniform_numerics) 0 "k11" 0 100 "GET" "/"
               200 (warm (4 # 5) ∅)).2 in
  dict_get "k11"%string (ip_features d')
  = Some (compute_features (H := uniform_numerics) (window "k11" d')).
Proof.
  apply (@requester_vector_is_fresh uniform_numerics).
  - vm_compute. discriminate.
  - vm_compute. repeat constructor.
  - vm_compute. repeat constructor.
Defined.
